(** * Site script (js/script.js): a shallow embedding and its properties

  The script wires a handful of independent behaviours to a static page:
  the navigation menu, active-link highlighting, progress bars, the map
  toggle and the contact helpers.  Each initializer is embedded below as
  the handlers it registers, written over explicit DOM state. *)

From Stdlib Require Import ZArith String Ascii DecimalString.
From Stdlib Require DecimalPos.
From stdpp Require Import base numbers list strings gmap.

Open Scope string_scope.
Open Scope Z_scope.

(** ** The few JavaScript primitives the script relies on *)

Module JS.

(** [String.prototype.startsWith]. *)
Definition startsWith (p s : string) : bool := String.prefix p s.

(** JavaScript truthiness of a string: only the empty string is falsy. *)
Definition truthy (s : string) : bool := negb (String.eqb s "").

(** [a || b] where [a] is a string, [null] or [undefined] ([None]). *)
Definition or_else (a : option string) (b : string) : string :=
  match a with
  | Some s => if truthy s then s else b
  | None => b
  end.

(** White space skipped by [parseInt], on code units below 256. *)
Definition is_space (c : ascii) : bool :=
  let n := nat_of_ascii c in
  ((9 <=? n)%nat && (n <=? 13)%nat) || (n =? 32)%nat || (n =? 160)%nat.

Definition digit_of (c : ascii) : option Z :=
  let n := Z.of_nat (nat_of_ascii c) in
  if (48 <=? n) && (n <=? 57) then Some (n - 48) else None.

Fixpoint skip_spaces (s : string) : string :=
  match s with
  | String c r => if is_space c then skip_spaces r else s
  | EmptyString => s
  end.

(** Longest prefix of decimal digits, accumulated left to right;
    [None] when there is no digit at all. *)
Fixpoint digits (acc : option Z) (s : string) : option Z :=
  match s with
  | String c r =>
      match digit_of c with
      | Some d => digits (Some (10 * default 0 acc + d)) r
      | None => acc
      end
  | EmptyString => acc
  end.

(** [parseInt(s, 10)]; [None] stands for [NaN].  The result is the
    mathematical integer, which is what the double holds up to 2^53. *)
Definition parseInt (s : string) : option Z :=
  match skip_spaces s with
  | String "-" r => Z.opp <$> digits None r
  | String "+" r => digits None r
  | r => digits None r
  end.

(** [n || 0] on the result of [parseInt]: [NaN] and [0] are falsy. *)
Definition num_or_zero (n : option Z) : Z := default 0 n.

(** [String(n)] for an integer below 10^21: its decimal digits. *)
Definition toString (n : Z) : string := NilZero.string_of_int (Z.to_int n).

(** Largest integer up to which [w++] is exact on doubles. *)
Definition MAX_EXACT : Z := 2 ^ 53.

End JS.

(** ** DOM elements *)

Module DOM.

Record Element := mkElement {
  classList : list string;
  attributes : gmap string string;
  textContent : string;
  style : gmap string string
}.

Definition set_classList (cl : list string) (el : Element) : Element :=
  mkElement cl (attributes el) (textContent el) (style el).
Definition set_textContent (t : string) (el : Element) : Element :=
  mkElement (classList el) (attributes el) t (style el).
Definition set_style (p v : string) (el : Element) : Element :=
  mkElement (classList el) (attributes el) (textContent el) (<[p:=v]> (style el)).

(** [el.getAttribute(n)] ([None] is [null]) and [el.setAttribute(n, v)]. *)
Definition getAttribute (n : string) (el : Element) : option string :=
  attributes el !! n.
Definition setAttribute (n v : string) (el : Element) : Element :=
  mkElement (classList el) (<[n:=v]> (attributes el)) (textContent el) (style el).

(** [DOMTokenList]: an ordered list of class names. *)
Definition classList_contains (c : string) (el : Element) : bool :=
  bool_decide (c ∈ classList el).
Definition tokens_add (c : string) (cl : list string) : list string :=
  if bool_decide (c ∈ cl) then cl else cl ++ [c].
Definition tokens_remove (c : string) (cl : list string) : list string :=
  filter (λ x, x ≠ c) cl.
Definition classList_add (c : string) (el : Element) : Element :=
  set_classList (tokens_add c (classList el)) el.
Definition classList_remove (c : string) (el : Element) : Element :=
  set_classList (tokens_remove c (classList el)) el.
(** [el.classList.toggle(c)]: the new element and the returned flag. *)
Definition classList_toggle (c : string) (el : Element) : Element * bool :=
  if classList_contains c el then (classList_remove c el, false)
  else (classList_add c el, true).

(** What a selector query may return. *)
Inductive Node :=
  | NavLink (i : nat)       (* the i-th element of [nav ul li a] *)
  | Elem (name : string).   (* any other element *)

End DOM.

Import DOM.

(** ** Handlers as state transformers that may throw *)

Inductive Outcome (A : Type) :=
  | Ok (a : A)
  | Throw (err : string).
Arguments Ok {A} a.
Arguments Throw {A} err.

(** State changes made before an exception remain, as in JavaScript. *)
Definition M (S A : Type) : Type := S → Outcome A * S.

#[global] Instance M_ret {S} : MRet (M S) := λ A a s, (Ok a, s).
#[global] Instance M_bind {S} : MBind (M S) := λ A B f m s,
  match m s with
  | (Ok a, s') => f a s'
  | (Throw e, s') => (Throw e, s')
  end.

Definition get {S} : M S S := λ s, (Ok s, s).
Definition modify {S} (f : S → S) : M S unit := λ s, (Ok tt, f s).
Definition throw {S A} (e : string) : M S A := λ s, (Throw e, s).
Definition lift {S A} (o : Outcome A) : M S A := λ s, (o, s).
Definition when {S} (b : bool) (m : M S unit) : M S unit :=
  if b then m else mret tt.

(** [try { body } catch (err) { handler }]. *)
Definition try_catch {S A} (body : M S A) (handler : string → M S A) : M S A :=
  λ s, match body s with
       | (Ok a, s') => (Ok a, s')
       | (Throw e, s') => handler e s'
       end.

(** [xs.forEach(f)] and [for (const x of xs) f(x)]. *)
Fixpoint forEach {S A} (f : A → M S unit) (xs : list A) : M S unit :=
  match xs with
  | [] => mret tt
  | x :: r => f x ;; forEach f r
  end.

(** The state a handler leaves behind, whether it returned or threw. *)
Definition exec {S A} (m : M S A) (s : S) : S := snd (m s).
(** Whether a handler returned normally. *)
Definition returns {S A} (m : M S A) (s : S) : bool :=
  match fst (m s) with Ok _ => true | Throw _ => false end.

(** ** Events *)

Inductive EventType := click | pointerdown | touchstart | keydown.
Inductive PointerType := mouse | pen | touch.

#[global] Instance EventType_eq_dec : EqDecision EventType.
Proof. solve_decision. Defined.
#[global] Instance PointerType_eq_dec : EqDecision PointerType.
Proof. solve_decision. Defined.

(** The event target as the handlers see it: whether the event passes
    through the menu toggle, and the results of [e.target.closest('nav')]
    and [e.target.closest('nav ul li a')] (the position of the link in
    [nav ul li a]). *)
Record Target := mkTarget {
  onToggle : bool;
  closestNav : bool;
  closestNavLink : option nat
}.

Record Event := mkEvent {
  type : EventType;
  pointerType : PointerType;
  key : string;
  target : Target
}.

(** The document as a handler queries it: [document.querySelector(sel)]
    throws a [SyntaxError] on text that is not a selector, and otherwise
    returns the first match or [null]. *)
Record Document := mkDocument {
  querySelector : string → Outcome (option Node)
}.

(** ** initMenu and initActiveLinks: the navigation menu and its links *)

Module Nav.

(** The page as these two initializers see it.  [toggle] is
    [.menu-toggle], [navUl] is [nav ul] and [navLinks] is the list
    [nav ul li a] captured at initialization; the page is static, so a
    link found later by a selector is an element of [navLinks].
    [lastTouch] is the closure variable of [initMenu].  The last two
    fields record what a dispatch did to its event and to the viewport. *)
Record Page := mkPage {
  toggle : Element;
  navUl : Element;
  navLinks : list Element;
  lastTouch : Z;
  defaultPrevented : bool;
  scrolledIntoView : list Node
}.

Definition set_toggle (f : Element → Element) (p : Page) : Page :=
  mkPage (f (toggle p)) (navUl p) (navLinks p) (lastTouch p)
         (defaultPrevented p) (scrolledIntoView p).
Definition set_navUl (f : Element → Element) (p : Page) : Page :=
  mkPage (toggle p) (f (navUl p)) (navLinks p) (lastTouch p)
         (defaultPrevented p) (scrolledIntoView p).
Definition set_navLinks (f : list Element → list Element) (p : Page) : Page :=
  mkPage (toggle p) (navUl p) (f (navLinks p)) (lastTouch p)
         (defaultPrevented p) (scrolledIntoView p).
Definition set_lastTouch (t : Z) (p : Page) : Page :=
  mkPage (toggle p) (navUl p) (navLinks p) t
         (defaultPrevented p) (scrolledIntoView p).
Definition set_defaultPrevented (b : bool) (p : Page) : Page :=
  mkPage (toggle p) (navUl p) (navLinks p) (lastTouch p) b (scrolledIntoView p).
Definition log_scrollIntoView (n : Node) (p : Page) : Page :=
  mkPage (toggle p) (navUl p) (navLinks p) (lastTouch p)
         (defaultPrevented p) (scrolledIntoView p ++ [n]).

(** [e.preventDefault()] *)
Definition preventDefault : M Page unit := modify (set_defaultPrevented true).

(** [const setExpanded = (v) => toggle.setAttribute('aria-expanded', v ? 'true' : 'false')] *)
Definition setExpanded (v : bool) : M Page unit :=
  modify (set_toggle (setAttribute "aria-expanded" (if v then "true" else "false"))).

Definition TOUCH_IGNORE_MS : Z := 900.

(** [navUl.classList.contains('show')] *)
Definition shown (p : Page) : bool := classList_contains "show" (navUl p).

(** [navUl.classList.toggle('show')], returning the new visibility. *)
Definition toggleShow : M Page bool :=
  λ p, (Ok (snd (classList_toggle "show" (navUl p))),
        set_navUl (λ ul, fst (classList_toggle "show" ul)) p).

(** [navUl.classList.remove('show')] *)
Definition removeShow : M Page unit := modify (set_navUl (classList_remove "show")).

(** [toggleMenu(e)]; [date_now] is the value of [Date.now()] while the
    handler runs. *)
Definition toggleMenu (date_now : Z) (e : Event) : M Page unit :=
  p ← get;
  if bool_decide (type e = click ∨ type e = pointerdown)
     && (date_now - lastTouch p <? TOUCH_IGNORE_MS)
  then mret tt
  else
    when (bool_decide (type e = touchstart))
         (preventDefault ;; modify (set_lastTouch date_now)) ;;
    when (bool_decide (type e = pointerdown) && bool_decide (pointerType e = touch))
         (modify (set_lastTouch date_now)) ;;
    now ← toggleShow;
    setExpanded now.

(** The listeners [initMenu] puts on the toggle. *)
Definition onPointerdown (date_now : Z) (e : Event) : M Page unit :=
  when (bool_decide (pointerType e = touch)) preventDefault ;;
  toggleMenu date_now e.

Definition onTouchstart (date_now : Z) (e : Event) : M Page unit :=
  preventDefault ;; toggleMenu date_now e.

Definition onToggleKeydown (date_now : Z) (e : Event) : M Page unit :=
  when (String.eqb (key e) "Enter" || String.eqb (key e) " ")
       (preventDefault ;; toggleMenu date_now e).

(** The two listeners [initMenu] puts on the document. *)
Definition closeOnOutsideClick (e : Event) : M Page unit :=
  p ← get;
  if negb (shown p) then mret tt
  else when (negb (closestNav (target e))) (removeShow ;; setExpanded false).

Definition closeOnEscape (e : Event) : M Page unit :=
  p ← get;
  when (String.eqb (key e) "Escape" && shown p) (removeShow ;; setExpanded false).

(** [navLinks.forEach(l => l.classList.remove('active'))] *)
Definition clearActive : M Page unit :=
  modify (set_navLinks (fmap (classList_remove "active"))).

(** [n.classList.add('active')]; a class put on an element outside
    [navLinks] is not part of the state. *)
Definition addActive (n : Node) : M Page unit :=
  match n with
  | NavLink i => modify (set_navLinks (alter (classList_add "active") i))
  | Elem _ => mret tt
  end.

(** The click listener [initActiveLinks] puts on the document; [a] is
    the clicked link, an element of [navLinks]. *)
Definition onNavClick (doc : Document) (e : Event) : M Page unit :=
  match closestNavLink (target e) with
  | None => mret tt
  | Some i =>
      p ← get;
      match navLinks p !! i with
      | None => mret tt
      | Some a =>
          let href := JS.or_else (getAttribute "href" a) "" in
          when (JS.startsWith "#" href)
               (preventDefault ;;
                target ← lift (querySelector doc href);
                match target with
                | Some n => modify (log_scrollIntoView n)
                | None => mret tt
                end) ;;
          clearActive ;;
          addActive (NavLink i) ;;
          p' ← get;
          when (shown p') removeShow
      end
  end.

(** A [section[id]] element with its layout as read during a scroll. *)
Record SectionEl := mkSection {
  offsetTop : Z;
  offsetHeight : Z;
  sec_id : string
}.

Definition dquote : string := String "034"%char EmptyString.

(** The template literal [`nav ul li a[href="#${id}"]`]. *)
Definition link_selector (id : string) : string :=
  "nav ul li a[href=" +:+ dquote +:+ "#" +:+ id +:+ dquote +:+ "]".

(** The body of the loop [for (const sec of sections)] in the scroll
    listener, with [y = window.scrollY + 120]. *)
Definition visit (doc : Document) (y : Z) (sec : SectionEl) : M Page unit :=
  let top := offsetTop sec in
  let height := offsetHeight sec in
  let id := sec_id sec in
  link ← lift (querySelector doc (link_selector id));
  when ((top <=? y) && (y <? top + height))
       (match link with
        | Some n => clearActive ;; addActive n
        | None => mret tt
        end).

(** The scroll listener of [initActiveLinks]. *)
Definition onScroll (doc : Document) (sections : list SectionEl) (scrollY : Z)
  : M Page unit :=
  let y := scrollY + 120 in
  forEach (visit doc y) sections.

(** Listener registration.  [PointerEvent] is the truth value of
    [window.PointerEvent] when [initMenu] ran. *)
Definition toggle_listeners (PointerEvent : bool) (date_now : Z) (e : Event)
  : list (M Page unit) :=
  match type e with
  | pointerdown => if PointerEvent then [onPointerdown date_now e] else []
  | touchstart => if PointerEvent then [] else [onTouchstart date_now e]
  | click => if PointerEvent then [] else [toggleMenu date_now e]
  | keydown => [onToggleKeydown date_now e]
  end.

Definition document_listeners (doc : Document) (e : Event) : list (M Page unit) :=
  match type e with
  | click => [closeOnOutsideClick e; onNavClick doc e]
  | keydown => [closeOnEscape e]
  | _ => []
  end.

(** One event delivered to the page: the toggle's listeners when the
    event passes through it, then the document's, in registration order.
    An exception ends the listener that threw and no other. *)
Definition dispatch (PointerEvent : bool) (doc : Document) (date_now : Z)
    (e : Event) (p : Page) : Page :=
  foldl (λ q l, exec l q) (set_defaultPrevented false p)
        ((if onToggle (target e) then toggle_listeners PointerEvent date_now e else [])
           ++ document_listeners doc e).

(** A run of timed events. *)
Fixpoint run (PointerEvent : bool) (doc : Document) (es : list (Z * Event))
    (p : Page) : Page :=
  match es with
  | [] => p
  | (t, e) :: r => run PointerEvent doc r (dispatch PointerEvent doc t e p)
  end.

(** The value of [aria-expanded] agrees with the list's visibility. *)
Definition synced (p : Page) : Prop :=
  getAttribute "aria-expanded" (toggle p) = Some (if shown p then "true" else "false").

(** A link carries the active state. *)
Definition active (l : Element) : bool := classList_contains "active" l.

(** The positions of the active links. *)
Definition active_at (i : nat) (p : Page) : Prop :=
  ∃ l, navLinks p !! i = Some l ∧ active l = true.

Definition at_most_one_active (p : Page) : Prop :=
  ∀ i j, active_at i p → active_at j p → i = j.

(** The range [top, top+height) of a section contains [y]. *)
Definition in_range (y : Z) (sec : SectionEl) : bool :=
  (offsetTop sec <=? y) && (y <? offsetTop sec + offsetHeight sec).

(** The link the document has for a section, when the query succeeds. *)
Definition link_of (doc : Document) (sec : SectionEl) : option Node :=
  match querySelector doc (link_selector (sec_id sec)) with
  | Ok (Some n) => Some n
  | _ => None
  end.

(** In document order, the links of the sections whose range contains
    [scrollY + 120]. *)
Definition current_links (doc : Document) (sections : list SectionEl)
    (scrollY : Z) : list Node :=
  omap (λ sec, if in_range (scrollY + 120) sec then link_of doc sec else None)
       sections.

(** No section id makes the link query throw. *)
Definition queries_ok (doc : Document) (sections : list SectionEl) : Prop :=
  Forall (λ sec, ∃ r, querySelector doc (link_selector (sec_id sec)) = Ok r) sections.

(** The test at the head of [toggleMenu]: the event is dropped. *)
Definition filtered (t : Z) (e : Event) (p : Page) : bool :=
  bool_decide (type e = click ∨ type e = pointerdown)
  && (t - lastTouch p <? TOUCH_IGNORE_MS).

(** The links after [clearActive ;; addActive n]. *)
Definition mark (n : Node) (links : list Element) : list Element :=
  match n with
  | NavLink i => alter (classList_add "active") i (classList_remove "active" <$> links)
  | Elem _ => classList_remove "active" <$> links
  end.

(** The links after the scroll loop, given the last link it marked. *)
Definition final_links (o : option Node) (l : list Element) : list Element :=
  match o with
  | Some n => mark n l
  | None => l
  end.

(** A touch-type pointer-down on the toggle. *)
Definition tap (k : string) (nav : bool) (link : option nat) : Event :=
  mkEvent pointerdown touch k (mkTarget true nav link).

End Nav.

(** ** animateProgressBars *)

Module Progress.

(** [parseInt(bar.dataset.progress || bar.getAttribute('data-progress') || 0, 10) || 0];
    both reads return the [data-progress] attribute, and the number [0]
    reaches [parseInt] as the string ["0"]. *)
Definition read_target (bar : Element) : Z :=
  JS.num_or_zero
    (JS.parseInt
       (JS.or_else (getAttribute "data-progress" bar)
                   (JS.or_else (getAttribute "data-progress" bar) "0"))).

(** One bar with the interval [setInterval] started for it: the constant
    [target] and the counter [w] of the closure, and whether the interval
    is still scheduled. *)
Record Anim := mkAnim {
  bar : Element;
  target : Z;
  w : Z;
  scheduled : bool
}.

(** [const target = ...; let w=0; const id = setInterval(..., speed)] *)
Definition start (b : Element) : Anim := mkAnim b (read_target b) 0 true.

(** What one step writes: [bar.style.width = w+'%'; bar.textContent = w+'%']. *)
Definition render (w : Z) (b : Element) : Element :=
  set_textContent (JS.toString w +:+ "%") (set_style "width" (JS.toString w +:+ "%") b).

(** One firing of the interval callback
    [if(w>=target) clearInterval(id); else { w++; ... }];
    a cleared interval fires no more. *)
Definition tick (a : Anim) : Anim :=
  if scheduled a then
    if target a <=? w a then mkAnim (bar a) (target a) (w a) false
    else mkAnim (render (w a + 1) (bar a)) (target a) (w a + 1) true
  else a.

Definition ticks (n : nat) (a : Anim) : Anim := Nat.iter n tick a.

(** [safeQueryAll('.progress-bar').forEach(bar => ...)]: one interval each. *)
Definition animateProgressBars (bars : list Element) : list Anim := start <$> bars.

(** The animation of a bar is complete once its interval is cleared. *)
Definition completed (a : Anim) : Prop := scheduled a = false.

End Progress.

(** ** initMapToggle *)

Module MapToggle.

Record State := mkState {
  mapToggleBtn : Element;
  mapResponsive : Element
}.

(** The click listener; [rect_top] is
    [mapResponsive.getBoundingClientRect().top].  Returns the new state
    and the [top] handed to [window.scrollTo]. *)
Definition onClick (rect_top scrollY : Z) (s : State) : State * Z :=
  let mapResponsive' := fst (classList_toggle "expanded" (mapResponsive s)) in
  let expanded := classList_contains "expanded" mapResponsive' in
  let btn' := set_textContent (if expanded then "Ver mapa compacto" else "Ver mapa completo")
                              (mapToggleBtn s) in
  (mkState btn' mapResponsive', rect_top + scrollY - 80).

End MapToggle.

(** ** initContactHelpers *)

Module Contact.

(** What [navigator.clipboard.writeText] does on this page load:
    [navigator.clipboard] is undefined (the member access throws), the
    promise rejects, or it resolves. *)
Inductive Clipboard := Unavailable | Rejects | Resolves.

Inductive TimerAction := FadeOut | Hide.

(** [toast] is [#contact-toast] ([None] when the page has none),
    [emailLink] is [#direct-email-link] and [form] is [#contact-form].
    [timers] are the pending [setTimeout] calls with their delays,
    [written] what reached the clipboard. *)
Record State := mkState {
  toast : option Element;
  emailLink : Element;
  form : Element;
  clipboard : Clipboard;
  written : list string;
  timers : list (Z * TimerAction);
  defaultPrevented : bool
}.

Definition set_toast (t : Element) (s : State) : State :=
  mkState (Some t) (emailLink s) (form s) (clipboard s) (written s) (timers s)
          (defaultPrevented s).
Definition setTimeout (a : TimerAction) (delay : Z) : M State unit :=
  modify (λ s, mkState (toast s) (emailLink s) (form s) (clipboard s) (written s)
                       (timers s ++ [(delay, a)]) (defaultPrevented s)).
Definition preventDefault : M State unit :=
  modify (λ s, mkState (toast s) (emailLink s) (form s) (clipboard s) (written s)
                       (timers s) true).
Definition log_written (text : string) : M State unit :=
  modify (λ s, mkState (toast s) (emailLink s) (form s) (clipboard s)
                       (written s ++ [text]) (timers s) (defaultPrevented s)).

(** [showToast(msg, duration=3000)] *)
Definition showToast (msg : string) (duration : Z) : M State unit :=
  s ← get;
  match toast s with
  | None => mret tt
  | Some t =>
      modify (set_toast (set_style "opacity" "1"
                           (classList_remove "sr-only" (set_textContent msg t)))) ;;
      setTimeout FadeOut duration
  end.

(** The two timer callbacks of [showToast]. *)
Definition fire (a : TimerAction) : M State unit :=
  s ← get;
  match toast s, a with
  | Some t, FadeOut => modify (set_toast (set_style "opacity" "0" t)) ;; setTimeout Hide 300
  | Some t, Hide => modify (set_toast (classList_add "sr-only" t))
  | None, _ => mret tt
  end.

Fixpoint drop_chars (n : nat) (s : string) : string :=
  match n, s with
  | S k, String _ r => drop_chars k r
  | _, _ => s
  end.

(** [s.replace(pat, '')] for a non-empty string pattern: the first
    occurrence is removed. *)
Fixpoint remove_first (pat s : string) : string :=
  if String.prefix pat s then drop_chars (String.length pat) s
  else match s with
       | String c r => String c (remove_first pat r)
       | EmptyString => EmptyString
       end.

(** [(emailLink.getAttribute('href')||'').replace('mailto:','') || emailLink.dataset.email];
    [None] is [undefined]. *)
Definition email (s : State) : option string :=
  let fromHref := remove_first "mailto:" (JS.or_else (getAttribute "href" (emailLink s)) "") in
  if JS.truthy fromHref then Some fromHref
  else getAttribute "data-email" (emailLink s).

(** [await navigator.clipboard.writeText(text)] *)
Definition writeText (text : option string) : M State unit :=
  s ← get;
  match clipboard s with
  | Unavailable => throw "TypeError"
  | Rejects => throw "NotAllowedError"
  | Resolves => log_written (default "undefined" text)
  end.

(** The click listener of [#copy-email-btn]. *)
Definition onCopyClick : M State unit :=
  s ← get;
  let email := email s in
  try_catch
    (writeText email ;; showToast "Correo copiado al portapapeles" 3000)
    (λ err, showToast "No se pudo copiar. Selecciona el correo manualmente." 3000).

(** The submit listener of [#contact-form]. *)
Definition onSubmit : M State unit :=
  s ← get;
  let actionUrl := JS.or_else (getAttribute "action" (form s)) "" in
  if negb (JS.truthy actionUrl)
  then preventDefault ;; showToast "No hay destino configurado para el formulario" 3000
  else showToast "Enviando mensaje..." 3000.

(** The form has a configured action target: the attribute is present
    and not empty. *)
Definition configured (s : State) : bool :=
  match getAttribute "action" (form s) with
  | Some a => negb (String.eqb a "")
  | None => false
  end.

(** The same page with another form element. *)
Definition with_form (f : Element) (s : State) : State :=
  mkState (toast s) (emailLink s) f (clipboard s) (written s) (timers s)
          (defaultPrevented s).

(** A toast is on display with the text [msg]. *)
Definition toast_shows (msg : string) (s : State) : Prop :=
  ∃ t, toast s = Some t ∧ textContent t = msg
       ∧ classList_contains "sr-only" t = false
       ∧ style t !! "opacity" = Some "1".

End Contact.

(** ** initMenu: attaching the listeners *)

Module MenuInit.

(** The listeners [initMenu] can attach, by the order of their
    [addEventListener] calls. *)
Inductive Listener :=
  | TogglePointerdown
  | ToggleTouchstart
  | ToggleClick
  | ToggleKeydown
  | DocumentClick
  | DocumentKeydown.

(** What [initMenu] finds and leaves: the results of
    [safeQuery('.menu-toggle')] and [safeQuery('nav ul')], the truth value
    of [window.PointerEvent], and the listeners attached so far. *)
Record Env := mkEnv {
  toggle : option Element;
  navUl : option Element;
  PointerEvent : bool;
  attached : list Listener
}.

(** [el.dataset.x === 'true'] for the data attribute [name]. *)
Definition dataset_is_true (name : string) (el : Element) : bool :=
  match getAttribute name el with
  | Some v => String.eqb v "true"
  | None => false
  end.

(** [initMenu]; [dataset._menuAttached] is the attribute
    [data-_menu-attached] and [dataset.toggleAttached] is
    [data-toggle-attached]. *)
Definition initMenu (env : Env) : Env :=
  match toggle env, navUl env with
  | Some tg, Some _ =>
      if dataset_is_true "data-_menu-attached" tg
         || dataset_is_true "data-toggle-attached" tg
      then env
      else
        mkEnv (Some (setAttribute "data-toggle-attached" "true"
                       (setAttribute "data-_menu-attached" "true" tg)))
              (navUl env) (PointerEvent env)
              (attached env
                 ++ (if PointerEvent env then [TogglePointerdown]
                     else [ToggleTouchstart; ToggleClick])
                 ++ [ToggleKeydown; DocumentClick; DocumentKeydown])
  | _, _ => env
  end.

(** The event a listener is attached for, whether it sits on the toggle,
    and its code. *)
Definition listens_to (l : Listener) : EventType :=
  match l with
  | TogglePointerdown => pointerdown
  | ToggleTouchstart => touchstart
  | ToggleClick | DocumentClick => click
  | ToggleKeydown | DocumentKeydown => keydown
  end.

Definition on_toggle (l : Listener) : bool :=
  match l with
  | DocumentClick | DocumentKeydown => false
  | _ => true
  end.

Definition code (l : Listener) (date_now : Z) (e : Event) : M Nav.Page unit :=
  match l with
  | TogglePointerdown => Nav.onPointerdown date_now e
  | ToggleTouchstart => Nav.onTouchstart date_now e
  | ToggleClick => Nav.toggleMenu date_now e
  | ToggleKeydown => Nav.onToggleKeydown date_now e
  | DocumentClick => Nav.closeOnOutsideClick e
  | DocumentKeydown => Nav.closeOnEscape e
  end.

(** The attached listeners an event of type [type e] runs, on the toggle
    or on the document, in the order they were attached. *)
Definition listeners_for (env : Env) (toggle_side : bool) (date_now : Z) (e : Event)
  : list (M Nav.Page unit) :=
  (λ l, code l date_now e)
    <$> filter (λ l, listens_to l = type e ∧ on_toggle l = toggle_side) (attached env).

End MenuInit.

(** ** initProgressObserver *)

Module ProgressObserver.

(** [animated] is the closure flag, [observing] whether the observer is
    still connected, [intervals] the intervals [animateProgressBars] has
    started on the bars of the page. *)
Record State := mkState {
  bars : list Element;
  animated : bool;
  observing : bool;
  intervals : list Progress.Anim
}.

(** [initProgressObserver]; [habilidades] tells whether
    [document.getElementById('habilidades')] found the container. *)
Definition initProgressObserver (habilidades : bool) (bars : list Element) : State :=
  if habilidades then mkState bars false true []
  else mkState bars false false (Progress.animateProgressBars bars).

(** The body of [entries.forEach(entry => ...)]:
    [if(entry.isIntersecting && !animated){ animateProgressBars(); animated=true; obs.disconnect(); }] *)
Definition onEntry (isIntersecting : bool) (s : State) : State :=
  if isIntersecting && negb (animated s)
  then mkState (bars s) true false
               (intervals s ++ Progress.animateProgressBars (bars s))
  else s.

(** The observer callback on one batch of entries. *)
Definition callback (entries : list bool) (s : State) : State :=
  foldl (λ q entry, onEntry entry q) s entries.

(** One notification: a disconnected observer is not called back. *)
Definition notify (entries : list bool) (s : State) : State :=
  if observing s then callback entries s else s.

Definition notify_all (batches : list (list bool)) (s : State) : State :=
  foldl (λ q entries, notify entries q) s batches.

End ProgressObserver.

(** ** initDownloadButtons *)

Module Download.

(** What can happen to one download link: the six events it listens to,
    and the firing of a pending [setTimeout(remove, 600)]. *)
Inductive Ev := Touchstart | Mousedown | Touchend | Mouseup | Mouseleave | Click | Timeout.

(** The link and the number of [setTimeout(remove, 600)] calls not yet
    fired. *)
Record State := mkState {
  btn : Element;
  pending : nat
}.

(** [const add = ()=>btn.classList.add('pressed')] and
    [const remove = ()=>btn.classList.remove('pressed')] *)
Definition add (s : State) : State := mkState (classList_add "pressed" (btn s)) (pending s).
Definition remove (s : State) : State :=
  mkState (classList_remove "pressed" (btn s)) (pending s).

Definition handle (ev : Ev) (s : State) : State :=
  match ev with
  | Touchstart | Mousedown => add s
  | Touchend | Mouseup | Mouseleave => remove s
  | Click => mkState (btn s) (S (pending s))
  | Timeout =>
      match pending s with
      | O => s
      | S k => remove (mkState (btn s) k)
      end
  end.

Definition run (evs : list Ev) (s : State) : State := foldl (λ q ev, handle ev q) s evs.

Definition pressed (s : State) : bool := classList_contains "pressed" (btn s).

Definition is_press (ev : Ev) : bool :=
  match ev with
  | Touchstart | Mousedown => true
  | _ => false
  end.

End Download.

(** ** initCards *)

Module Cards.

(** [if (!card.hasAttribute('tabindex')) card.setAttribute('tabindex','0')] *)
Definition initCard (card : Element) : Element :=
  match getAttribute "tabindex" card with
  | Some _ => card
  | None => setAttribute "tabindex" "0" card
  end.

Definition initCards (cards : list Element) : list Element := initCard <$> cards.

Inductive Ev := Click | Keydown (key : string).

(** The two listeners of a card: the new card and whether the default
    action of the event was prevented. *)
Definition handle (ev : Ev) (card : Element) : Element * bool :=
  match ev with
  | Click => (fst (classList_toggle "is-flipped" card), false)
  | Keydown k =>
      if String.eqb k "Enter" || String.eqb k " "
      then (fst (classList_toggle "is-flipped" card), true)
      else (card, false)
  end.

Definition run (evs : list Ev) (card : Element) : Element :=
  foldl (λ c ev, fst (handle ev c)) card evs.

Definition flipped (card : Element) : bool := classList_contains "is-flipped" card.

(** The events that flip a card. *)
Definition activates (ev : Ev) : bool :=
  match ev with
  | Click => true
  | Keydown k => String.eqb k "Enter" || String.eqb k " "
  end.

End Cards.

(** ** The timers of showToast *)

Module ToastTimers.

(** The [k]-th pending timer fires: it leaves the queue and its callback
    runs. *)
Definition fire_pending (k : nat) : M Contact.State unit :=
  s ← get;
  match Contact.timers s !! k with
  | None => mret tt
  | Some (_, a) =>
      modify (λ q, Contact.mkState (Contact.toast q) (Contact.emailLink q)
                     (Contact.form q) (Contact.clipboard q) (Contact.written q)
                     (delete k (Contact.timers q)) (Contact.defaultPrevented q)) ;;
      Contact.fire a
  end.

(** The toast is out of sight: faded and marked [sr-only]. *)
Definition toast_hidden (msg : string) (s : Contact.State) : Prop :=
  ∃ t, Contact.toast s = Some t ∧ textContent t = msg
       ∧ classList_contains "sr-only" t = true
       ∧ style t !! "opacity" = Some "0".

End ToastTimers.

(** ** The map toggle, click after click *)

Module MapClicks.

(** [n] clicks on the map toggle, whatever the scroll positions. *)
Fixpoint clicks (views : list (Z * Z)) (s : MapToggle.State) : MapToggle.State :=
  match views with
  | [] => s
  | (rect_top, scrollY) :: r => clicks r (fst (MapToggle.onClick rect_top scrollY s))
  end.

Definition expanded (s : MapToggle.State) : bool :=
  classList_contains "expanded" (MapToggle.mapResponsive s).

End MapClicks.

(** ** What may follow the digits of a target *)

Module Numeral.


End Numeral.

(** * Properties *)

(** ** Class lists *)

Section ClassList.

Implicit Types (c x : string) (cl : list string) (el : Element).

Lemma elem_of_tokens_remove c x cl :
  x ∈ tokens_remove c cl ↔ x ∈ cl ∧ x ≠ c.
Proof. unfold tokens_remove. rewrite list_elem_of_filter. tauto. Qed.

Lemma tokens_remove_absent c cl : c ∉ cl → tokens_remove c cl = cl.
Proof.
  intros Hc. unfold tokens_remove. induction cl as [|x cl IH]; [done|].
  rewrite filter_cons. apply not_elem_of_cons in Hc as [Hx Hcl].
  destruct (decide (x ≠ c)) as [_|n]; [by rewrite IH | by destruct n].
Qed.

Lemma tokens_remove_add c cl :
  tokens_remove c (tokens_add c cl) = tokens_remove c cl.
Proof.
  unfold tokens_add. case_bool_decide; [done|].
  unfold tokens_remove. rewrite filter_app, filter_cons, filter_nil.
  destruct (decide (c ≠ c)); [congruence | by rewrite app_nil_r].
Qed.

Lemma tokens_remove_idemp c cl :
  tokens_remove c (tokens_remove c cl) = tokens_remove c cl.
Proof.
  apply tokens_remove_absent. rewrite elem_of_tokens_remove. tauto.
Qed.

Lemma contains_add c el : classList_contains c (classList_add c el) = true.
Proof.
  unfold classList_contains, classList_add, tokens_add; simpl.
  apply bool_decide_eq_true. destruct (bool_decide (c ∈ classList el)) eqn:Hc.
  - by apply bool_decide_eq_true in Hc.
  - apply elem_of_app; right. by apply list_elem_of_singleton.
Qed.

Lemma contains_remove c el : classList_contains c (classList_remove c el) = false.
Proof.
  unfold classList_contains, classList_remove; simpl.
  apply bool_decide_eq_false. rewrite elem_of_tokens_remove. tauto.
Qed.

Lemma contains_false_remove c el :
  classList_contains c el = false → classList_remove c el = el.
Proof.
  unfold classList_contains, classList_remove, set_classList.
  intros Hc%bool_decide_eq_false. rewrite tokens_remove_absent by done.
  by destruct el.
Qed.

Lemma remove_add c el :
  classList_remove c (classList_add c el) = classList_remove c el.
Proof.
  unfold classList_remove, classList_add, set_classList; simpl.
  by rewrite tokens_remove_add.
Qed.

Lemma remove_remove c el :
  classList_remove c (classList_remove c el) = classList_remove c el.
Proof.
  unfold classList_remove, set_classList; simpl. by rewrite tokens_remove_idemp.
Qed.

End ClassList.

Lemma exec_seq_modify {S A} (f : S → S) (m : M S A) (s : S) :
  exec (modify f ;; m) s = exec m (f s).
Proof. reflexivity. Qed.

Lemma forEach_cons {S A} (f : A → M S unit) (x : A) (r : list A) (s : S) :
  forEach f (x :: r) s
  = match f x s with
    | (Ok _, s') => forEach f r s'
    | (Throw err, s') => (Throw err, s')
    end.
Proof. reflexivity. Qed.

Lemma exec_seq_ret {S A} (m : M S A) (s : S) : exec (mret tt ;; m) s = exec m s.
Proof. reflexivity. Qed.

(** Unfolding of the handler combinators. *)
Ltac step_handler :=
  unfold exec, returns, when, lift, throw, try_catch, modify, get,
         mbind, M_bind, mret, M_ret in *; simpl in *.

(** ** The map toggle *)

Lemma onClick_collapsed (s : MapToggle.State) (r y : Z) :
  classList_contains "expanded" (MapToggle.mapResponsive s) = false →
  fst (MapToggle.onClick r y s)
  = MapToggle.mkState
      (set_textContent "Ver mapa compacto" (MapToggle.mapToggleBtn s))
      (classList_add "expanded" (MapToggle.mapResponsive s)).
Proof.
  intros Hc. unfold MapToggle.onClick, classList_toggle. rewrite Hc. simpl.
  by rewrite contains_add.
Qed.

Lemma onClick_expanded (s : MapToggle.State) (r y : Z) :
  classList_contains "expanded" (MapToggle.mapResponsive s) = true →
  fst (MapToggle.onClick r y s)
  = MapToggle.mkState
      (set_textContent "Ver mapa completo" (MapToggle.mapToggleBtn s))
      (classList_remove "expanded" (MapToggle.mapResponsive s)).
Proof.
  intros Hc. unfold MapToggle.onClick, classList_toggle. rewrite Hc. simpl.
  by rewrite contains_remove.
Qed.

(** C8: from the collapsed state one click expands the map and labels the
    button "Ver mapa compacto"; a second click collapses it again and
    labels the button "Ver mapa completo", leaving the container as it
    was, and the whole state as it was when the label started out as
    "Ver mapa completo". *)
Theorem map_toggle_round_trip (s : MapToggle.State) (r1 y1 r2 y2 : Z) :
  classList_contains "expanded" (MapToggle.mapResponsive s) = false →
  let s1 := fst (MapToggle.onClick r1 y1 s) in
  let s2 := fst (MapToggle.onClick r2 y2 s1) in
  classList_contains "expanded" (MapToggle.mapResponsive s1) = true
  ∧ textContent (MapToggle.mapToggleBtn s1) = "Ver mapa compacto"
  ∧ classList_contains "expanded" (MapToggle.mapResponsive s2) = false
  ∧ textContent (MapToggle.mapToggleBtn s2) = "Ver mapa completo"
  ∧ MapToggle.mapResponsive s2 = MapToggle.mapResponsive s
  ∧ (textContent (MapToggle.mapToggleBtn s) = "Ver mapa completo" → s2 = s).
Proof.
  intros Hc s1 s2. subst s2 s1.
  rewrite (onClick_collapsed s r1 y1 Hc).
  rewrite onClick_expanded by (simpl; apply contains_add).
  simpl. rewrite remove_add, (contains_false_remove _ _ Hc), contains_add.
  repeat split; try done.
  intros Hl. destruct s as [[cl at_ tx st] m]. simpl in *. by subst.
Qed.

Lemma map_toggle_round_trip_witness :
  let s := MapToggle.mkState (mkElement [] ∅ "Ver mapa completo" ∅)
                             (mkElement ["map-responsive"] ∅ "" ∅) in
  fst (MapToggle.onClick 300 40 (fst (MapToggle.onClick 500 0 s))) = s.
Proof.
  intros s.
  apply (map_toggle_round_trip s 500 0 300 40); reflexivity.
Defined.

(** ** The contact helpers *)

Lemma showToast_shows (msg : string) (d : Z) (s : Contact.State) (t : Element) :
  Contact.toast s = Some t →
  Contact.toast_shows msg (exec (Contact.showToast msg d) s)
  ∧ returns (Contact.showToast msg d) s = true
  ∧ Contact.defaultPrevented (exec (Contact.showToast msg d) s)
    = Contact.defaultPrevented s
  ∧ Contact.timers (exec (Contact.showToast msg d) s)
    = (Contact.timers s ++ [(d, Contact.FadeOut)])%list.
Proof.
  intros Ht. unfold Contact.showToast, Contact.toast_shows, Contact.setTimeout.
  step_handler. rewrite Ht. simpl. repeat split; try done.
  eexists. split; [done|]. simpl. repeat split.
  - apply (contains_remove "sr-only" (set_textContent msg t)).
  - apply lookup_insert_eq.
Qed.

(** Without a toast element nothing is displayed. *)
Lemma showToast_no_toast (msg : string) (d : Z) (s : Contact.State) :
  Contact.toast s = None → Contact.showToast msg d s = (Ok tt, s).
Proof. intros Ht. unfold Contact.showToast. step_handler. by rewrite Ht. Qed.

Lemma onSubmit_cases (s : Contact.State) :
  Contact.onSubmit s
  = if Contact.configured s then Contact.showToast "Enviando mensaje..." 3000 s
    else (Contact.preventDefault ;;
          Contact.showToast "No hay destino configurado para el formulario" 3000) s.
Proof.
  unfold Contact.onSubmit, Contact.configured, JS.or_else, JS.truthy.
  step_handler. destruct (getAttribute "action" (Contact.form s)) as [a|]; [|done].
  destruct (String.eqb a "") eqn:E; simpl; by rewrite ?E.
Qed.

Lemma onSubmit_configured (s : Contact.State) (t : Element) :
  Contact.toast s = Some t →
  Contact.configured s = true →
  returns Contact.onSubmit s = true
  ∧ Contact.defaultPrevented (exec Contact.onSubmit s) = Contact.defaultPrevented s
  ∧ Contact.toast_shows "Enviando mensaje..." (exec Contact.onSubmit s).
Proof.
  intros Ht Hc. unfold exec, returns. rewrite onSubmit_cases, Hc.
  destruct (showToast_shows "Enviando mensaje..." 3000 s t Ht) as (?&?&?&?).
  by repeat split.
Qed.

Lemma onSubmit_unconfigured (s : Contact.State) (t : Element) :
  Contact.toast s = Some t →
  Contact.configured s = false →
  returns Contact.onSubmit s = true
  ∧ Contact.defaultPrevented (exec Contact.onSubmit s) = true
  ∧ Contact.toast_shows "No hay destino configurado para el formulario"
      (exec Contact.onSubmit s).
Proof.
  intros Ht Hc. unfold exec, returns. rewrite onSubmit_cases, Hc.
  set (s1 := exec Contact.preventDefault s).
  assert (Ht1 : Contact.toast s1 = Some t) by done.
  destruct (showToast_shows "No hay destino configurado para el formulario"
              3000 s1 t Ht1) as (Hs&Hr&Hp&_).
  unfold exec, returns in *. step_handler. by repeat split.
Qed.

(** C6: on submit, a form without a configured action target has its
    submission cancelled and the toast "No hay destino configurado para el
    formulario" is shown; otherwise the handler does not cancel the
    submission and the toast "Enviando mensaje..." is shown at once.  The
    page has its toast element. *)
Theorem submit_feedback (s : Contact.State) (t : Element) :
  Contact.toast s = Some t →
  let s' := exec Contact.onSubmit s in
  returns Contact.onSubmit s = true
  ∧ if Contact.configured s
    then Contact.defaultPrevented s' = Contact.defaultPrevented s
         ∧ Contact.toast_shows "Enviando mensaje..." s'
    else Contact.defaultPrevented s' = true
         ∧ Contact.toast_shows "No hay destino configurado para el formulario" s'.
Proof.
  intros Ht s'. subst s'. destruct (Contact.configured s) eqn:Hc.
  - by destruct (onSubmit_configured s t Ht Hc) as (?&?&?).
  - by destruct (onSubmit_unconfigured s t Ht Hc) as (?&?&?).
Qed.

Lemma submit_feedback_witness :
  let s := Contact.mkState (Some (mkElement ["sr-only"] ∅ "" ∅))
             (mkElement [] ∅ "" ∅)
             (mkElement [] {["action" := "https://formspree.io/f/x"]} "" ∅)
             Contact.Resolves [] [] false in
  Contact.defaultPrevented (exec Contact.onSubmit s) = false
  ∧ Contact.toast_shows "Enviando mensaje..." (exec Contact.onSubmit s).
Proof.
  intros s.
  exact (proj2 (submit_feedback s (mkElement ["sr-only"] ∅ "" ∅) eq_refl)).
Defined.

(** C10: an action attribute that is present but empty is treated as no
    action target: the submission is cancelled and the unconfigured-target
    toast is shown, with the same toast, timers and cancellation as when
    the attribute is absent.  The page has its toast element. *)
Theorem submit_empty_action (s : Contact.State) (t : Element) :
  Contact.toast s = Some t →
  getAttribute "action" (Contact.form s) = Some "" →
  let s' := exec Contact.onSubmit s in
  let absent := Contact.with_form
                  (mkElement (classList (Contact.form s))
                     (delete "action" (attributes (Contact.form s)))
                     (textContent (Contact.form s)) (style (Contact.form s))) s in
  let s'' := exec Contact.onSubmit absent in
  Contact.defaultPrevented s' = true
  ∧ Contact.toast_shows "No hay destino configurado para el formulario" s'
  ∧ Contact.toast s' = Contact.toast s''
  ∧ Contact.timers s' = Contact.timers s''
  ∧ Contact.defaultPrevented s' = Contact.defaultPrevented s''.
Proof.
  intros Ht Ha s' absent s''.
  assert (Hc : Contact.configured s = false).
  { unfold Contact.configured. by rewrite Ha. }
  assert (Hc' : Contact.configured absent = false).
  { unfold Contact.configured, absent, getAttribute. simpl.
    by rewrite lookup_delete_eq. }
  destruct (onSubmit_unconfigured s t Ht Hc) as (_ & Hp & Hs). fold s' in Hp, Hs.
  split; [done|]. split; [done|].
  subst s' s''. unfold exec. rewrite !onSubmit_cases, Hc, Hc'.
  unfold Contact.showToast, Contact.preventDefault, Contact.setTimeout.
  step_handler. by rewrite Ht.
Qed.

Lemma submit_empty_action_witness :
  let s := Contact.mkState (Some (mkElement ["sr-only"] ∅ "" ∅))
             (mkElement [] ∅ "" ∅)
             (mkElement [] {["action" := ""]} "" ∅)
             Contact.Resolves [] [] false in
  Contact.defaultPrevented (exec Contact.onSubmit s) = true
  ∧ Contact.toast_shows "No hay destino configurado para el formulario"
      (exec Contact.onSubmit s).
Proof.
  intros s.
  pose proof (submit_empty_action s (mkElement ["sr-only"] ∅ "" ∅) eq_refl eq_refl)
    as (H1 & H2 & _).
  exact (conj H1 H2).
Defined.

Lemma onCopyClick_cases (s : Contact.State) :
  Contact.onCopyClick s
  = match Contact.clipboard s with
    | Contact.Resolves =>
        Contact.showToast "Correo copiado al portapapeles" 3000
          (exec (Contact.log_written (default "undefined" (Contact.email s))) s)
    | Contact.Unavailable | Contact.Rejects =>
        Contact.showToast "No se pudo copiar. Selecciona el correo manualmente." 3000 s
    end.
Proof.
  unfold Contact.onCopyClick, Contact.writeText, Contact.log_written,
    Contact.showToast, Contact.setTimeout.
  step_handler.
  destruct (Contact.clipboard s) eqn:Hc, (Contact.toast s) eqn:Ht;
    simpl; by rewrite ?Hc, ?Ht.
Qed.

(** A failing toast call is the only way for the [catch] block to run
    after a successful write; it never fails. *)
Lemma showToast_returns (msg : string) (d : Z) (s : Contact.State) :
  returns (Contact.showToast msg d) s = true.
Proof.
  unfold Contact.showToast, Contact.setTimeout. step_handler.
  by destruct (Contact.toast s).
Qed.

Lemma showToast_written (msg : string) (d : Z) (s : Contact.State) :
  Contact.written (exec (Contact.showToast msg d) s) = Contact.written s.
Proof.
  unfold Contact.showToast, Contact.setTimeout. step_handler.
  by destruct (Contact.toast s).
Qed.

(** C7: the copy-email click handler always returns normally; when the
    clipboard write resolves the toast "Correo copiado al portapapeles" is
    shown, and when the clipboard is unavailable or the write is rejected
    the toast "No se pudo copiar. Selecciona el correo manualmente." is
    shown.  The page has its toast element. *)
Theorem copy_email_feedback (s : Contact.State) (t : Element) :
  Contact.toast s = Some t →
  let s' := exec Contact.onCopyClick s in
  returns Contact.onCopyClick s = true
  ∧ match Contact.clipboard s with
    | Contact.Resolves =>
        Contact.toast_shows "Correo copiado al portapapeles" s'
        ∧ Contact.written s'
          = (Contact.written s ++ [default "undefined" (Contact.email s)])%list
    | Contact.Unavailable | Contact.Rejects =>
        Contact.toast_shows "No se pudo copiar. Selecciona el correo manualmente." s'
        ∧ Contact.written s' = Contact.written s
    end.
Proof.
  intros Ht s'. subst s'. unfold exec, returns.
  rewrite onCopyClick_cases.
  destruct (Contact.clipboard s).
  - pose proof (showToast_returns
      "No se pudo copiar. Selecciona el correo manualmente." 3000 s) as Hr.
    destruct (showToast_shows "No se pudo copiar. Selecciona el correo manualmente."
                3000 s t Ht) as (Hs&_).
    pose proof (showToast_written
      "No se pudo copiar. Selecciona el correo manualmente." 3000 s) as Hw.
    unfold exec, returns in *. by repeat split.
  - pose proof (showToast_returns
      "No se pudo copiar. Selecciona el correo manualmente." 3000 s) as Hr.
    destruct (showToast_shows "No se pudo copiar. Selecciona el correo manualmente."
                3000 s t Ht) as (Hs&_).
    pose proof (showToast_written
      "No se pudo copiar. Selecciona el correo manualmente." 3000 s) as Hw.
    unfold exec, returns in *. by repeat split.
  - set (s1 := snd (Contact.log_written (default "undefined" (Contact.email s)) s)).
    assert (Ht1 : Contact.toast s1 = Some t) by done.
    pose proof (showToast_returns "Correo copiado al portapapeles" 3000 s1) as Hr.
    destruct (showToast_shows "Correo copiado al portapapeles" 3000 s1 t Ht1)
      as (Hs&_).
    pose proof (showToast_written "Correo copiado al portapapeles" 3000 s1) as Hw.
    unfold exec, returns in *. by repeat split.
Qed.

Lemma copy_email_feedback_witness :
  let s := Contact.mkState (Some (mkElement ["sr-only"] ∅ "" ∅))
             (mkElement [] {["href" := "mailto:hola@example.com"]} "" ∅)
             (mkElement [] ∅ "" ∅)
             Contact.Rejects [] [] false in
  returns Contact.onCopyClick s = true
  ∧ Contact.toast_shows "No se pudo copiar. Selecciona el correo manualmente."
      (exec Contact.onCopyClick s).
Proof.
  intros s.
  pose proof (copy_email_feedback s (mkElement ["sr-only"] ∅ "" ∅) eq_refl)
    as (H1 & H2 & _).
  exact (conj H1 H2).
Defined.

(** ** The progress bars *)

Section ProgressBars.

Import Progress.

Example read_target_73 :
  read_target (mkElement ["progress-bar"] {["data-progress" := "73"]} "" ∅) = 73.
Proof. reflexivity. Qed.

Example read_target_absent : read_target (mkElement ["progress-bar"] ∅ "" ∅) = 0.
Proof. reflexivity. Qed.

Example read_target_not_numeric :
  read_target (mkElement ["progress-bar"] {["data-progress" := "alto"]} "" ∅) = 0.
Proof. reflexivity. Qed.

Example read_target_prefix :
  read_target (mkElement ["progress-bar"] {["data-progress" := " 40px"]} "" ∅) = 40.
Proof. reflexivity. Qed.

Lemma render_render (j k : Z) (b : Element) : render k (render j b) = render k b.
Proof.
  unfold render, set_textContent, set_style; simpl. by rewrite insert_insert_eq.
Qed.

Lemma tick_completed (a : Anim) : completed a → tick a = a.
Proof. unfold completed, tick. by intros ->. Qed.

Lemma ticks_completed (n : nat) (a : Anim) : completed a → ticks n a = a.
Proof.
  intros Ha. induction n as [|n IH]; [done|].
  unfold ticks in *. simpl. rewrite IH. by apply tick_completed.
Qed.

(** While the counter is below the target every firing adds one and
    writes the counter to the bar. *)
Lemma ticks_counting (b : Element) (n : nat) :
  Z.of_nat n ≤ read_target b →
  ticks (S n) (start b)
  = if decide (Z.of_nat n < read_target b)
    then mkAnim (render (Z.of_nat (S n)) b) (read_target b) (Z.of_nat (S n)) true
    else mkAnim (match n with O => b | _ => render (Z.of_nat n) b end)
                (read_target b) (Z.of_nat n) false.
Proof.
  induction n as [|n IH]; intros Hn.
  - unfold ticks, start, tick; simpl.
    case_decide; destruct (Z.leb_spec (read_target b) 0); simpl in *; try lia;
      reflexivity.
  - unfold ticks in *. rewrite Nat.iter_succ, IH by lia.
    rewrite decide_True by lia.
    unfold tick; simpl target; simpl w; simpl scheduled; simpl bar. cbv iota.
    replace (Z.of_nat (S n) + 1) with (Z.of_nat (S (S n))) by lia.
    rewrite render_render.
    destruct (decide (Z.of_nat (S n) < read_target b)),
             (Z.leb_spec (read_target b) (Z.of_nat (S n))); try lia; reflexivity.
Qed.

(** C2, as the code has it: the interval of every bar is cleared after
    [target + 1] firings (one firing when the target is not positive), for
    targets up to 2^53 where the counter is exact.  A positive target is
    then the bar's text and width, followed by "%"; with a target of zero
    or less the bar is left as the page had it. *)
Theorem progress_final_display (b : Element) :
  read_target b ≤ JS.MAX_EXACT →
  let a := ticks (Z.to_nat (read_target b) + 1) (start b) in
  completed a
  ∧ (∀ m, ticks m a = a)
  ∧ if 0 <? read_target b
    then textContent (bar a) = JS.toString (read_target b) +:+ "%"
         ∧ style (bar a) !! "width" = Some (JS.toString (read_target b) +:+ "%")
    else bar a = b.
Proof.
  intros _ a.
  assert (Ha : a = if 0 <? read_target b
                   then mkAnim (render (read_target b) b) (read_target b)
                               (read_target b) false
                   else mkAnim b (read_target b) 0 false).
  { subst a. rewrite Nat.add_1_r.
    destruct (Z.ltb_spec 0 (read_target b)) as [Hpos|Hneg].
    - rewrite ticks_counting by lia.
      rewrite decide_False by lia.
      rewrite Z2Nat.id by lia.
      destruct (Z.to_nat (read_target b)) eqn:E; [lia|done].
    - replace (Z.to_nat (read_target b)) with 0%nat by lia.
      assert (Hz : read_target b = 0 ∨ read_target b < 0) by lia.
      unfold ticks, start, tick; simpl.
      by destruct (Z.leb_spec (read_target b) 0); [|lia]. }
  assert (Hc : completed a).
  { rewrite Ha. by destruct (0 <? read_target b). }
  split; [done|]. split; [intros m; by apply ticks_completed|].
  rewrite Ha. destruct (0 <? read_target b); [|done].
  simpl. split; [done|]. apply lookup_insert_eq.
Qed.

Lemma progress_final_display_witness :
  let b := mkElement ["progress-bar"] {["data-progress" := "73"]} "" ∅ in
  let a := ticks 74 (start b) in
  completed a
  ∧ textContent (bar a) = "73%"
  ∧ style (bar a) !! "width" = Some "73%".
Proof.
  intros b a.
  assert (H : read_target b ≤ JS.MAX_EXACT) by (vm_compute; discriminate).
  destruct (progress_final_display b H) as (H1 & _ & H2).
  exact (conj H1 H2).
Defined.

(** C2 as stated fails for a target of zero: the first firing clears the
    interval and nothing was written, so the bar shows what the page put
    there and not "0%". *)
Lemma progress_zero_target_unrendered :
  let b := mkElement ["progress-bar"] ∅ "" ∅ in
  let z := mkElement ["progress-bar"] {["data-progress" := "0"]} "" ∅ in
  (read_target b = 0
   ∧ completed (ticks 1 (start b))
   ∧ textContent (bar (ticks 1 (start b))) = ""
   ∧ style (bar (ticks 1 (start b))) !! "width" = None)
  ∧ (read_target z = 0
     ∧ completed (ticks 1 (start z))
     ∧ textContent (bar (ticks 1 (start z))) = ""
     ∧ style (bar (ticks 1 (start z))) !! "width" = None).
Proof. repeat split. Qed.

End ProgressBars.

(** ** The menu toggle *)

Section Menu.

Import Nav.

Implicit Types (p : Page) (e : Event) (t : Z) (doc : Document).

Lemma classList_toggle_flag (c : string) (el : Element) :
  snd (classList_toggle c el) = negb (classList_contains c el)
  ∧ classList_contains c (fst (classList_toggle c el)) = negb (classList_contains c el).
Proof.
  unfold classList_toggle. destruct (classList_contains c el) eqn:Hc; simpl.
  - by rewrite contains_remove.
  - by rewrite contains_add.
Qed.

Lemma toggleMenu_filtered t e p :
  filtered t e p = true → toggleMenu t e p = (Ok tt, p).
Proof. unfold filtered, toggleMenu. step_handler. by intros ->. Qed.

(** What a call that passes the filter leaves behind. *)
Lemma toggleMenu_passes t e p :
  filtered t e p = false →
  let p' := exec (toggleMenu t e) p in
  returns (toggleMenu t e) p = true
  ∧ shown p' = negb (shown p)
  ∧ synced p'
  ∧ navLinks p' = navLinks p
  ∧ lastTouch p'
    = (if bool_decide (type e = touchstart)
          || bool_decide (type e = pointerdown) && bool_decide (pointerType e = touch)
       then t else lastTouch p)
  ∧ defaultPrevented p'
    = (bool_decide (type e = touchstart) || defaultPrevented p).
Proof.
  intros Hf. unfold filtered in Hf. unfold toggleMenu, toggleShow, setExpanded,
    preventDefault, synced, shown. step_handler. rewrite Hf.
  destruct (classList_toggle_flag "show" (navUl p)) as [Hs Hc].
  destruct (bool_decide (type e = touchstart)) eqn:E1;
    destruct (bool_decide (type e = pointerdown) && bool_decide (pointerType e = touch)) eqn:E2;
    simpl; rewrite Hc, Hs; unfold getAttribute; simpl;
    rewrite lookup_insert_eq; repeat split; try done.
  all: apply bool_decide_eq_true in E1; apply andb_true_iff in E2 as [E2 _];
    apply bool_decide_eq_true in E2; congruence.
Qed.

(** C3: when [toggleMenu] handles a touch-start and then a click or
    pointer-down less than 900 ms later, the menu's visibility is toggled
    exactly once: the touch-start flips it, and the follow-up event leaves
    the page exactly as it was. *)
Theorem touch_then_synthetic_toggles_once p t1 t2 e1 e2 :
  type e1 = touchstart →
  type e2 = click ∨ type e2 = pointerdown →
  t2 - t1 < TOUCH_IGNORE_MS →
  let p1 := exec (toggleMenu t1 e1) p in
  let p2 := exec (toggleMenu t2 e2) p1 in
  shown p1 = negb (shown p) ∧ p2 = p1 ∧ shown p2 = negb (shown p).
Proof.
  intros H1 H2 Ht p1 p2.
  assert (Hf1 : filtered t1 e1 p = false).
  { unfold filtered. rewrite bool_decide_eq_false_2; [done|].
    intros [?|?]; congruence. }
  destruct (toggleMenu_passes t1 e1 p Hf1) as (_ & Hs & _ & _ & Hl & _).
  fold p1 in Hs, Hl. rewrite bool_decide_eq_true_2 in Hl by done. simpl in Hl.
  assert (Hf2 : filtered t2 e2 p1 = true).
  { unfold filtered. rewrite bool_decide_eq_true_2 by done. simpl.
    rewrite Hl. apply Z.ltb_lt. done. }
  assert (Hp : p2 = p1).
  { subst p2. unfold exec. by rewrite toggleMenu_filtered. }
  by rewrite Hp.
Qed.

Lemma touch_then_synthetic_toggles_once_witness :
  let p := mkPage (mkElement ["menu-toggle"] {["aria-expanded" := "false"]} "" ∅)
                  (mkElement [] ∅ "" ∅) [] 0 false [] in
  let e1 := mkEvent touchstart touch "" (mkTarget true true None) in
  let e2 := mkEvent click mouse "" (mkTarget true true None) in
  let p1 := exec (toggleMenu 1700000000000 e1) p in
  shown p1 = true ∧ exec (toggleMenu 1700000000350 e2) p1 = p1.
Proof.
  intros p e1 e2 p1.
  assert (Ht : 1700000000350 - 1700000000000 < TOUCH_IGNORE_MS)
    by (vm_compute; reflexivity).
  destruct (touch_then_synthetic_toggles_once p 1700000000000 1700000000350 e1 e2
              eq_refl (or_introl eq_refl) Ht) as (H1 & H2 & _).
  exact (conj H1 H2).
Defined.

End Menu.

(** ** Pointer-event registration and the expanded flag *)

Section MenuListeners.

Import Nav.

Implicit Types (p : Page) (e : Event) (t : Z) (doc : Document).

Lemma dispatch_tap doc t k nav link p :
  dispatch true doc t (tap k nav link) p
  = exec (toggleMenu t (tap k nav link)) (set_defaultPrevented true p).
Proof. by destruct p. Qed.

(** A tap inside the window: nothing but the cancelled default. *)
Lemma tap_inside_window doc p t k nav link :
  t - lastTouch p < TOUCH_IGNORE_MS →
  dispatch true doc t (tap k nav link) p = set_defaultPrevented true p.
Proof.
  intros Hw. rewrite dispatch_tap. unfold exec. rewrite toggleMenu_filtered; [done|].
  unfold filtered. simpl. by apply Z.ltb_lt.
Qed.

(** A tap outside the window toggles and records its time. *)
Lemma tap_outside_window doc p t k nav link :
  TOUCH_IGNORE_MS ≤ t - lastTouch p →
  let p' := dispatch true doc t (tap k nav link) p in
  shown p' = negb (shown p) ∧ lastTouch p' = t ∧ synced p'
  ∧ defaultPrevented p' = true.
Proof.
  intros Hw p'. subst p'. rewrite dispatch_tap.
  set (q := set_defaultPrevented true p).
  assert (Hq : filtered t (tap k nav link) q = false).
  { unfold filtered. simpl. by apply Z.ltb_ge. }
  destruct (toggleMenu_passes t (tap k nav link) q Hq) as (_ & Hs & Hy & _ & Hl & Hd).
  repeat split; done.
Qed.

(** C9, as the code has it: with pointer events, a touch-type pointer-down
    on the toggle is dropped exactly when it comes less than 900 ms after
    the time in [lastTouch], and it writes [lastTouch] only when it is not
    dropped.  A tap within 900 ms of the latest tap that toggled is
    therefore dropped, even a genuine one, and a dropped tap leaves no
    timestamp behind. *)
Theorem tap_dropped_after_recorded_tap doc p t k nav link :
  let p' := dispatch true doc t (tap k nav link) p in
  if t - lastTouch p <? TOUCH_IGNORE_MS
  then p' = set_defaultPrevented true p
  else shown p' = negb (shown p) ∧ lastTouch p' = t ∧ synced p'.
Proof.
  intros p'. subst p'.
  destruct (Z.ltb_spec (t - lastTouch p) TOUCH_IGNORE_MS) as [Hw|Hw].
  - by apply tap_inside_window.
  - by destruct (tap_outside_window doc p t k nav link Hw) as (?&?&?&?).
Qed.

(** Two taps: the first toggles, the second comes within the window and
    changes nothing. *)
Lemma second_tap_dropped doc p t1 t2 k nav link :
  TOUCH_IGNORE_MS ≤ t1 - lastTouch p →
  t2 - t1 < TOUCH_IGNORE_MS →
  let p1 := dispatch true doc t1 (tap k nav link) p in
  shown p1 = negb (shown p) ∧ dispatch true doc t2 (tap k nav link) p1 = p1.
Proof.
  intros H1 H2 p1.
  destruct (tap_outside_window doc p t1 k nav link H1) as (Hs & Hl & _ & Hd).
  fold p1 in Hs, Hl, Hd. split; [done|].
  rewrite tap_inside_window by (rewrite Hl; done).
  destruct p1; simpl in *; by subst.
Qed.

(** C9 as stated fails on a third tap: taps at 0 ms, 800 ms and 1000 ms.
    The second is dropped and leaves no timestamp, so the third, 200 ms
    after it, toggles the menu. *)
Lemma third_tap_toggles :
  let doc := mkDocument (λ _, Ok None) in
  let page := mkPage (mkElement ["menu-toggle"] {["aria-expanded" := "false"]} "" ∅)
                     (mkElement [] ∅ "" ∅) [] 0 false [] in
  let e := tap "" true None in
  let p2 := run true doc [(1700000000000, e); (1700000000800, e)] page in
  1700000001000 - 1700000000800 < TOUCH_IGNORE_MS
  ∧ shown p2 = true
  ∧ shown (dispatch true doc 1700000001000 e p2) = false.
Proof. vm_compute. repeat split. Qed.

End MenuListeners.

(** ** The expanded flag across all listeners *)

Section ExpandedFlag.

Import Nav.

Implicit Types (p : Page) (e : Event) (t : Z) (doc : Document).

Lemma synced_set_defaultPrevented b p : synced (set_defaultPrevented b p) ↔ synced p.
Proof. by destruct p. Qed.

Lemma toggleMenu_synced t e p : synced p → synced (exec (toggleMenu t e) p).
Proof.
  intros Hs. destruct (filtered t e p) eqn:Hf.
  - unfold exec. by rewrite toggleMenu_filtered.
  - by destruct (toggleMenu_passes t e p Hf) as (_ & _ & H & _).
Qed.

Lemma close_synced p :
  synced (exec (removeShow ;; setExpanded false) p).
Proof.
  unfold removeShow, setExpanded, synced, shown, getAttribute. step_handler.
  by rewrite contains_remove, lookup_insert_eq.
Qed.

Lemma closeOnOutsideClick_synced e p :
  synced p → synced (exec (closeOnOutsideClick e) p).
Proof.
  intros Hs. unfold closeOnOutsideClick.
  unfold exec, get, mbind, M_bind at 1. simpl.
  destruct (shown p); simpl; [|done].
  destruct (closestNav (target e)); simpl; [done|]. apply close_synced.
Qed.

Lemma closeOnEscape_synced e p :
  synced p → synced (exec (closeOnEscape e) p).
Proof.
  intros Hs. unfold closeOnEscape.
  unfold exec, get, mbind, M_bind at 1. simpl.
  destruct (String.eqb (key e) "Escape" && shown p); simpl; [|done].
  apply close_synced.
Qed.

Lemma onToggleKeydown_synced t e p :
  synced p → synced (exec (onToggleKeydown t e) p).
Proof.
  intros Hs. unfold onToggleKeydown, preventDefault.
  destruct (String.eqb (key e) "Enter" || String.eqb (key e) " "); simpl when;
    [|done].
  rewrite exec_seq_modify. apply toggleMenu_synced.
  by apply synced_set_defaultPrevented.
Qed.

Lemma toggle_listeners_synced pe t e p l :
  l ∈ toggle_listeners pe t e → synced p → synced (exec l p).
Proof.
  unfold toggle_listeners. intros Hl Hs.
  destruct (type e), pe; simpl in Hl;
    repeat match goal with
           | H : _ ∈ [] |- _ => by apply elem_of_nil in H
           | H : _ ∈ [_] |- _ => apply list_elem_of_singleton in H; subst l
           end.
  - by apply toggleMenu_synced.
  - unfold onPointerdown, preventDefault.
    destruct (bool_decide (pointerType e = touch)); simpl when.
    + rewrite exec_seq_modify. apply toggleMenu_synced.
      by apply synced_set_defaultPrevented.
    + rewrite exec_seq_ret. by apply toggleMenu_synced.
  - unfold onTouchstart, preventDefault. rewrite exec_seq_modify.
    apply toggleMenu_synced. by apply synced_set_defaultPrevented.
  - by apply onToggleKeydown_synced.
  - by apply onToggleKeydown_synced.
Qed.

(** Every listener of [initMenu] keeps the flag in step with the list:
    an event that is not a click on a navigation link leaves a synced
    page synced. *)
Lemma menu_listeners_keep_synced pe doc t e p :
  closestNavLink (target e) = None →
  synced p → synced (dispatch pe doc t e p).
Proof.
  intros Hn Hs. unfold dispatch.
  assert (Hall : ∀ l, l ∈ ((if onToggle (target e) then toggle_listeners pe t e else [])
                           ++ document_listeners doc e)%list →
                      ∀ q, synced q → synced (exec l q)).
  { intros l [Hl|Hl]%elem_of_app q Hq.
    - destruct (onToggle (target e)); [|by apply elem_of_nil in Hl].
      by eapply toggle_listeners_synced.
    - unfold document_listeners in Hl. destruct (type e);
        repeat match goal with
               | H : _ ∈ [] |- _ => by apply elem_of_nil in H
               | H : _ ∈ _ :: _ |- _ => apply elem_of_cons in H as [->|H]
               end.
      + by apply closeOnOutsideClick_synced.
      + unfold onNavClick. by rewrite Hn.
      + by apply closeOnEscape_synced. }
  apply synced_set_defaultPrevented with (b := false) in Hs.
  revert Hall Hs. generalize (set_defaultPrevented false p).
  induction ((if onToggle (target e) then toggle_listeners pe t e else [])
               ++ document_listeners doc e)%list as [|l ls IH];
    intros q Hall Hq; [done|].
  simpl. apply IH.
  - intros l' Hl'. apply Hall. by right.
  - apply Hall; [by left | done].
Qed.

(** What the click listener of [initActiveLinks] leaves alone. *)
Lemma onNavClick_frame doc e p :
  toggle (exec (onNavClick doc e) p) = toggle p
  ∧ lastTouch (exec (onNavClick doc e) p) = lastTouch p.
Proof.
  unfold onNavClick, clearActive, addActive, removeShow, preventDefault.
  destruct (closestNavLink (target e)) as [i|]; [|done].
  step_handler. destruct (navLinks p !! i) as [a|]; [|done]. simpl.
  destruct (JS.startsWith "#" _); simpl.
  - destruct (querySelector doc _) as [[n|]|err]; simpl; try done;
      by destruct (shown _).
  - by destruct (shown _).
Qed.

(** C1 fails on the code: with the menu open and the flag "true", a click
    on a navigation link hides the list and leaves the flag "true". *)
Theorem nav_click_leaves_expanded_true :
  let doc := mkDocument (λ _, Ok (Some (Elem "section#inicio"))) in
  let page := mkPage (mkElement ["menu-toggle"] {["aria-expanded" := "true"]} "" ∅)
                     (mkElement ["show"] ∅ "" ∅)
                     [mkElement [] {["href" := "#inicio"]} "Inicio" ∅]
                     0 false [] in
  let e := mkEvent click mouse "" (mkTarget false true (Some 0%nat)) in
  let page' := dispatch true doc 1700000000000 e page in
  synced page
  ∧ shown page' = false
  ∧ getAttribute "aria-expanded" (toggle page') = Some "true".
Proof. vm_compute. repeat split. Qed.

(** The same on any page: the link click hides an open list and never
    touches the flag. *)
Lemma nav_click_breaks_synced pe doc t e p i a :
  onToggle (target e) = false →
  type e = click →
  closestNav (target e) = true →
  closestNavLink (target e) = Some i →
  navLinks p !! i = Some a →
  returns (onNavClick doc e) (set_defaultPrevented false p) = true →
  synced p → shown p = true →
  ¬ synced (dispatch pe doc t e p).
Proof.
  intros Ho Hty Hnav Hi Ha Hr Hs Hsh. unfold dispatch, document_listeners.
  rewrite Ho, Hty. simpl.
  set (q := set_defaultPrevented false p).
  assert (Hq1 : exec (closeOnOutsideClick e) q = q).
  { unfold closeOnOutsideClick. step_handler.
    replace (shown q) with true by (by destruct p). simpl. by rewrite Hnav. }
  rewrite Hq1.
  destruct (onNavClick_frame doc e q) as [Ht _].
  unfold synced. rewrite Ht.
  assert (Hsq : shown q = true) by (by destruct p).
  assert (Hx : shown (exec (onNavClick doc e) q) = false).
  { revert Hr. unfold onNavClick, clearActive, addActive, removeShow, preventDefault.
    rewrite Hi. step_handler.
    replace (navLinks q) with (navLinks p) by (by destruct p). rewrite Ha. simpl.
    unfold shown in *.
    destruct (JS.startsWith "#" _); simpl.
    - destruct (querySelector doc _) as [[n|]|err]; simpl; try done;
        rewrite Hsh; simpl; intros _; apply contains_remove.
    - rewrite Hsh; simpl; intros _; apply contains_remove. }
  rewrite Hx. unfold synced in Hs. rewrite Hsh in Hs.
  replace (toggle q) with (toggle p) by (by destruct p). rewrite Hs. congruence.
Qed.

End ExpandedFlag.

(** ** Active links *)

Section ActiveLinks.

Import Nav.

Implicit Types (p : Page) (e : Event) (doc : Document) (l : list Element)
  (n m : Node) (i j : nat).

Lemma mark_lookup i l j :
  mark (NavLink i) l !! j
  = (λ x, if decide (i = j)
          then classList_add "active" (classList_remove "active" x)
          else classList_remove "active" x) <$> l !! j.
Proof.
  unfold mark. destruct (decide (i = j)) as [->|Hne].
  - rewrite list_lookup_alter, list_lookup_fmap, decide_True by done.
    by destruct (l !! j).
  - by rewrite list_lookup_alter_ne, list_lookup_fmap.
Qed.

Lemma clear_mark n l :
  classList_remove "active" <$> mark n l = classList_remove "active" <$> l.
Proof.
  apply list_eq. intros j. destruct n as [i|name].
  - rewrite !list_lookup_fmap, mark_lookup. destruct (l !! j) as [x|]; [|done].
    simpl. destruct (decide (i = j)).
    + by rewrite remove_add, remove_remove.
    + by rewrite remove_remove.
  - unfold mark. rewrite !list_lookup_fmap. destruct (l !! j) as [x|]; [|done].
    simpl. by rewrite remove_remove.
Qed.

Lemma mark_mark n m l : mark n (mark m l) = mark n l.
Proof. destruct n; unfold mark at 1 3; by rewrite clear_mark. Qed.

(** After marking link [i], the active links are exactly link [i]. *)
Lemma active_at_mark p p' i :
  navLinks p' = mark (NavLink i) (navLinks p) →
  (i < length (navLinks p))%nat →
  ∀ j, active_at j p' ↔ j = i.
Proof.
  intros Hp Hi j. unfold active_at, active. rewrite Hp, mark_lookup. split.
  - intros (x & Hx & Ha). destruct (navLinks p !! j) as [y|]; [|done].
    simpl in Hx. destruct (decide (i = j)); [done|].
    injection Hx as <-. by rewrite contains_remove in Ha.
  - intros ->. destruct (lookup_lt_is_Some_2 _ _ Hi) as [y Hy]. rewrite Hy. simpl.
    rewrite decide_True by done. eexists. split; [done|]. apply contains_add.
Qed.

Lemma at_most_one_mark p p' n :
  navLinks p' = mark n (navLinks p) → at_most_one_active p'.
Proof.
  intros Hp. destruct n as [i|name].
  - assert (H : ∀ j, active_at j p' → j = i).
    { intros j (x & Hx & Ha). rewrite Hp, mark_lookup in Hx.
      destruct (navLinks p !! j) as [y|]; [|done]. simpl in Hx.
      destruct (decide (i = j)); [done|].
      injection Hx as <-. unfold active in Ha. by rewrite contains_remove in Ha. }
    intros j k Hj Hk. by rewrite (H j Hj), (H k Hk).
  - intros j k (x & Hx & Ha) _. rewrite Hp in Hx. unfold mark in Hx.
    rewrite list_lookup_fmap in Hx. destruct (navLinks p !! j) as [y|]; [|done].
    injection Hx as <-. unfold active in Ha. by rewrite contains_remove in Ha.
Qed.

Lemma set_navLinks_mark n p :
  exec (clearActive ;; addActive n) p = set_navLinks (mark n) p
  ∧ returns (clearActive ;; addActive n) p = true.
Proof. destruct n, p; done. Qed.

(** *** Clicks *)

(** When the selector query does not throw, the click listener marks the
    clicked link and no other, closes the list, and cancels the default
    navigation of an anchor link. *)
Lemma nav_click_marks_clicked_link doc e p i a :
  closestNavLink (target e) = Some i →
  navLinks p !! i = Some a →
  returns (onNavClick doc e) p = true →
  let p' := exec (onNavClick doc e) p in
  (∀ j, active_at j p' ↔ j = i)
  ∧ shown p' = false
  ∧ (JS.startsWith "#" (JS.or_else (getAttribute "href" a) "") = true →
     defaultPrevented p' = true).
Proof.
  intros Hi Ha Hr p'.
  assert (Hlen : (i < length (navLinks p))%nat) by (by eapply lookup_lt_Some).
  assert (H : navLinks p' = mark (NavLink i) (navLinks p)
              ∧ shown p' = false
              ∧ (JS.startsWith "#" (JS.or_else (getAttribute "href" a) "") = true →
                 defaultPrevented p' = true)).
  { subst p'. revert Hr.
    unfold onNavClick, clearActive, addActive, removeShow, preventDefault.
    rewrite Hi. step_handler. rewrite Ha. simpl. unfold shown.
    destruct (JS.startsWith "#" _); simpl.
    - destruct (querySelector doc _) as [[n|]|err]; simpl; try done;
        destruct (classList_contains "show" (navUl p)) eqn:Hs; simpl; intros _;
        repeat split; try done; apply contains_remove.
    - destruct (classList_contains "show" (navUl p)) eqn:Hs; simpl; intros _;
        repeat split; try done; apply contains_remove. }
  destruct H as (Hm & Hs & Hd). split; [|done].
  by apply (active_at_mark p p' i).
Qed.

(** C4 fails on the code for the href "#": [document.querySelector('#')]
    throws, so the listener stops after cancelling the default action; the
    clicked link is not marked, the link that was active stays active and
    the open list stays open. *)
Theorem nav_click_bare_hash_throws :
  let doc := mkDocument (λ sel, if String.eqb sel "#" then Throw "SyntaxError"
                                else Ok None) in
  let page := mkPage (mkElement ["menu-toggle"] {["aria-expanded" := "true"]} "" ∅)
                     (mkElement ["show"] ∅ "" ∅)
                     [mkElement ["active"] {["href" := "#inicio"]} "Inicio" ∅;
                      mkElement [] {["href" := "#"]} "Arriba" ∅]
                     0 false [] in
  let e := mkEvent click mouse "" (mkTarget false true (Some 1%nat)) in
  let page' := dispatch true doc 1700000000000 e page in
  returns (onNavClick doc e) (set_defaultPrevented false page) = false
  ∧ defaultPrevented page' = true
  ∧ active <$> navLinks page' = [true; false]
  ∧ shown page' = true.
Proof. vm_compute. repeat split. Qed.

End ActiveLinks.

(** *** Scrolling *)

Section ScrollSpy.

Import Nav.

Implicit Types (p : Page) (doc : Document) (secs : list SectionEl)
  (sec : SectionEl) (y : Z).

(** One section of the loop: the query may throw before anything is
    changed; otherwise a section in range with a link marks that link. *)
Lemma visit_cases doc y sec p :
  visit doc y sec p
  = match querySelector doc (link_selector (sec_id sec)) with
    | Throw err => (Throw err, p)
    | Ok link =>
        (Ok tt,
         match (if in_range y sec then link else None) with
         | Some n => set_navLinks (mark n) p
         | None => p
         end)
    end.
Proof.
  unfold visit, in_range. step_handler.
  destruct (querySelector doc _) as [[n|]|err]; simpl; try done.
  - destruct (_ && _); simpl; [|done]. by destruct n, p.
  - by destruct (_ && _).
Qed.

Lemma set_navLinks_id p : set_navLinks (final_links None) p = p.
Proof. by destruct p. Qed.

Lemma set_navLinks_compose (f g : list Element → list Element) p :
  set_navLinks f (set_navLinks g p) = set_navLinks (f ∘ g) p.
Proof. by destruct p. Qed.

Lemma set_navLinks_ext (f g : list Element → list Element) p :
  f (navLinks p) = g (navLinks p) → set_navLinks f p = set_navLinks g p.
Proof. destruct p; unfold set_navLinks; simpl. by intros ->. Qed.

Lemma final_links_cons (n : Node) (cl : list Node) (l : list Element) :
  final_links (last (n :: cl)) l = final_links (last cl) (mark n l).
Proof.
  destruct cl as [|m ms]; [done|].
  rewrite last_cons. destruct (last (m :: ms)) as [k|] eqn:Hk; simpl.
  - by rewrite mark_mark.
  - by apply last_None in Hk.
Qed.

Lemma current_links_cons doc sec secs scrollY :
  current_links doc (sec :: secs) scrollY
  = match (if in_range (scrollY + 120) sec then link_of doc sec else None) with
    | Some n => n :: current_links doc secs scrollY
    | None => current_links doc secs scrollY
    end.
Proof. reflexivity. Qed.

Lemma forEach_visit doc scrollY secs p :
  queries_ok doc secs →
  forEach (visit doc (scrollY + 120)) secs p
  = (Ok tt, set_navLinks (final_links (last (current_links doc secs scrollY))) p).
Proof.
  revert p. induction secs as [|sec r IH]; intros p Hok.
  - simpl. by rewrite set_navLinks_id.
  - apply Forall_cons in Hok as [[link Hq] Hr].
    rewrite forEach_cons, visit_cases, Hq.
    rewrite IH by done. f_equal.
    assert (Hl : link_of doc sec = link).
    { unfold link_of. rewrite Hq. by destruct link. }
    rewrite current_links_cons, Hl.
    destruct (in_range (scrollY + 120) sec) eqn:Hin; [|done].
    destruct link as [n|]; [|done].
    rewrite set_navLinks_compose. apply set_navLinks_ext.
    by rewrite final_links_cons.
Qed.

(** A throwing query ends the loop: the listener did what it does on the
    sections before it. *)
Lemma forEach_visit_prefix doc y secs p :
  ∃ secs', queries_ok doc secs'
           ∧ exec (forEach (visit doc y) secs) p = exec (forEach (visit doc y) secs') p.
Proof.
  revert p. induction secs as [|sec r IH]; intros p.
  - exists []. split; [constructor | done].
  - destruct (querySelector doc (link_selector (sec_id sec))) as [link|err] eqn:Hq.
    + set (p1 := exec (visit doc y sec) p).
      destruct (IH p1) as (r' & Hok & Hr). exists (sec :: r'). split.
      * constructor; [by eexists | done].
      * subst p1. unfold exec in *. rewrite !forEach_cons.
        rewrite visit_cases, Hq in *. simpl in *. done.
    + exists []. split; [constructor|].
      unfold exec. rewrite forEach_cons.
      by rewrite visit_cases, Hq.
Qed.

(** C5, as the code has it: the scroll listener never leaves more than one
    link active when at most one was active before; when no query throws
    and some section whose range contains [scrollY + 120] has a link,
    the one active link afterwards is the link of the last such section in
    document order; and when no section in range has a link nothing
    changes. *)
Theorem scroll_marks_last_current_section doc secs scrollY p :
  let p' := exec (onScroll doc secs scrollY) p in
  (at_most_one_active p → at_most_one_active p')
  ∧ (queries_ok doc secs →
     ∀ i, last (current_links doc secs scrollY) = Some (NavLink i) →
          (i < length (navLinks p))%nat →
          ∀ j, active_at j p' ↔ j = i)
  ∧ (queries_ok doc secs → current_links doc secs scrollY = [] → p' = p).
Proof.
  intros p'. subst p'. unfold onScroll. split; [|split].
  - intros Hp.
    destruct (forEach_visit_prefix doc (scrollY + 120) secs p) as (r & Hok & ->).
    unfold exec. rewrite (forEach_visit doc scrollY r p Hok). simpl.
    destruct (last (current_links doc r scrollY)) as [n|].
    + apply (at_most_one_mark p _ n). by destruct p.
    + by rewrite set_navLinks_id.
  - intros Hok i Hl Hi. unfold exec.
    rewrite (forEach_visit doc scrollY secs p Hok), Hl. simpl.
    apply (active_at_mark p _ i); [by destruct p | done].
  - intros Hok Hc. unfold exec. rewrite (forEach_visit doc scrollY secs p Hok), Hc.
    apply set_navLinks_id.
Qed.

Lemma scroll_marks_last_current_section_witness :
  let doc := mkDocument (λ sel,
    if String.eqb sel (link_selector "proyectos") then Ok (Some (NavLink 0))
    else if String.eqb sel (link_selector "contacto") then Ok (Some (NavLink 1))
    else Ok None) in
  let secs := [mkSection 0 900 "proyectos"; mkSection 900 700 "contacto"] in
  let page := mkPage (mkElement ["menu-toggle"] ∅ "" ∅) (mkElement [] ∅ "" ∅)
                     [mkElement [] {["href" := "#proyectos"]} "Proyectos" ∅;
                      mkElement [] {["href" := "#contacto"]} "Contacto" ∅]
                     0 false [] in
  let page' := exec (onScroll doc secs 800) page in
  at_most_one_active page' ∧ ∀ j, active_at j page' ↔ j = 1%nat.
Proof.
  intros doc secs page page'.
  destruct (scroll_marks_last_current_section doc secs 800 page) as (H1 & H2 & _).
  assert (Hpage : at_most_one_active page).
  { intros i j (x & Hx & Ha) _. destruct i as [|[|i]]; simpl in Hx; [| |done];
      injection Hx as <-; by vm_compute in Ha. }
  assert (Hok : queries_ok doc secs).
  { repeat constructor; by eexists. }
  split.
  - exact (H1 Hpage).
  - apply (H2 Hok 1%nat); [reflexivity | simpl; lia].
Defined.

(** C5 as stated fails in two ways.  With a section nested in another,
    both ranges contain [scrollY + 120] and both have a link: the loop ends
    on the inner one, so the outer section's link is not the active one.
    And with no section in range the listener changes nothing, so two
    links active in the markup stay active. *)
Lemma scroll_overlap_and_stale_marks :
  let doc := mkDocument (λ sel,
    if String.eqb sel (link_selector "proyectos") then Ok (Some (NavLink 0))
    else if String.eqb sel (link_selector "destacado") then Ok (Some (NavLink 1))
    else Ok None) in
  let outer := mkSection 0 1000 "proyectos" in
  let inner := mkSection 200 300 "destacado" in
  let links (cl : list string) :=
    [mkElement cl {["href" := "#proyectos"]} "Proyectos" ∅;
     mkElement cl {["href" := "#destacado"]} "Destacado" ∅] in
  let page (cl : list string) :=
    mkPage (mkElement ["menu-toggle"] ∅ "" ∅) (mkElement [] ∅ "" ∅)
           (links cl) 0 false [] in
  (in_range (180 + 120) outer = true
   ∧ link_of doc outer = Some (NavLink 0)
   ∧ active <$> navLinks (exec (onScroll doc [outer; inner] 180) (page [])) = [false; true])
  ∧ (in_range (0 + 120) inner = false
     ∧ active <$> navLinks (exec (onScroll doc [inner] 0) (page ["active"])) = [true; true]).
Proof. vm_compute. repeat split. Qed.

End ScrollSpy.

(** ** The two registrations of the toggle *)

Section Registration.

Import Nav.

Implicit Types (p : Page) (e : Event) (t : Z) (doc : Document).

(** X25: without pointer events, touch-start and click both reach
    [toggleMenu]: through the listeners, a touch-start on the toggle
    followed within 900 ms by the click the browser synthesizes (the
    toggle sits inside [nav]) changes the list once, and the click leaves
    the page as the touch-start left it. *)
Lemma fallback_touch_then_click doc p t1 t2 k1 k2 pt1 pt2 nav :
  t2 - t1 < TOUCH_IGNORE_MS →
  let e1 := mkEvent touchstart pt1 k1 (mkTarget true nav None) in
  let e2 := mkEvent click pt2 k2 (mkTarget true true None) in
  let p1 := dispatch false doc t1 e1 p in
  let p2 := dispatch false doc t2 e2 p1 in
  shown p1 = negb (shown p) ∧ p2 = set_defaultPrevented false p1.
Proof.
  intros Ht e1 e2 p1 p2.
  assert (E1 : p1 = exec (toggleMenu t1 e1) (set_defaultPrevented true p)).
  { by destruct p. }
  assert (Hf1 : filtered t1 e1 (set_defaultPrevented true p) = false) by done.
  destruct (toggleMenu_passes t1 e1 _ Hf1) as (_ & Hs & _ & _ & Hl & _).
  rewrite <- E1 in Hs, Hl. simpl in Hl. split; [exact Hs|].
  set (q := set_defaultPrevented false p1).
  assert (Hf2 : filtered t2 e2 q = true).
  { unfold filtered. simpl. by apply Z.ltb_lt. }
  subst p2. unfold dispatch. simpl. fold q. unfold exec at 3.
  rewrite toggleMenu_filtered by done. simpl.
  unfold closeOnOutsideClick. step_handler. by destruct (shown q).
Qed.

(** Without pointer events a pointer-down has no listener at all. *)
Lemma fallback_pointerdown_unbound doc p t k pt tg :
  dispatch false doc t (mkEvent pointerdown pt k tg) p = set_defaultPrevented false p.
Proof. unfold dispatch. simpl. by destruct (onToggle tg). Qed.

(** With pointer events only pointer-down is bound: a touch-start on the
    toggle reaches no listener. *)
Lemma pointer_touchstart_unbound doc p t k pt tg :
  dispatch true doc t (mkEvent touchstart pt k tg) p = set_defaultPrevented false p.
Proof. unfold dispatch. simpl. by destruct (onToggle tg). Qed.

(** X24: with pointer events, [lastTouch] is written by nothing but a
    touch-type pointer-down on the toggle that passes the filter: after
    any event it holds the time of that event in this one case and its
    old value in every other. *)
Lemma pointer_lastTouch doc p t e :
  lastTouch (dispatch true doc t e p)
  = if onToggle (target e) && bool_decide (type e = pointerdown)
       && bool_decide (pointerType e = touch)
       && negb (t - lastTouch p <? TOUCH_IGNORE_MS)
    then t else lastTouch p.
Proof.
  unfold dispatch. set (q := set_defaultPrevented false p).
  assert (Hq : lastTouch q = lastTouch p) by (by destruct p).
  assert (Hdoc : ∀ r, lastTouch (foldl (λ q l, exec l q) r (document_listeners doc e))
                      = lastTouch r).
  { intros r. unfold document_listeners. destruct (type e); simpl; try done.
    - destruct (onNavClick_frame doc e (exec (closeOnOutsideClick e) r)) as [_ ->].
      unfold closeOnOutsideClick, removeShow, setExpanded. step_handler.
      destruct (shown r); simpl; [|done]. by destruct (closestNav (target e)).
    - unfold closeOnEscape, removeShow, setExpanded. step_handler.
      by destruct (String.eqb (key e) "Escape" && shown r). }
  rewrite foldl_app, Hdoc.
  destruct (onToggle (target e)); simpl; [|done].
  unfold toggle_listeners. destruct (type e) eqn:Hty; simpl; try done.
  - unfold onPointerdown, preventDefault.
    destruct (bool_decide (pointerType e = touch)) eqn:Hpt; simpl when.
    + rewrite exec_seq_modify. set (q' := set_defaultPrevented true q).
      assert (Hq' : lastTouch q' = lastTouch p) by (by destruct p).
      destruct (filtered t e q') eqn:Hf.
      * unfold exec. rewrite toggleMenu_filtered by done. simpl.
        unfold filtered in Hf. rewrite Hq' in Hf.
        apply andb_true_iff in Hf as [_ Hf]. by rewrite Hf.
      * destruct (toggleMenu_passes t e q' Hf) as (_ & _ & _ & _ & Hl & _).
        rewrite Hl, Hty, Hpt. simpl.
        unfold filtered in Hf. rewrite Hty, Hq' in Hf. simpl in Hf.
        by rewrite Hf.
    + rewrite exec_seq_ret.
      destruct (filtered t e q) eqn:Hf.
      * unfold exec. by rewrite toggleMenu_filtered.
      * destruct (toggleMenu_passes t e q Hf) as (_ & _ & _ & _ & Hl & _).
        by rewrite Hl, Hty, Hpt.
  - unfold onToggleKeydown, preventDefault.
    destruct (String.eqb (key e) "Enter" || String.eqb (key e) " "); simpl when;
      [|done].
    rewrite exec_seq_modify. set (q' := set_defaultPrevented true q).
    assert (Hf : filtered t e q' = false).
    { unfold filtered. rewrite bool_decide_eq_false_2; [done|].
      intros [?|?]; congruence. }
    destruct (toggleMenu_passes t e q' Hf) as (_ & _ & _ & _ & Hl & _).
    rewrite Hl, Hty. simpl. by destruct p.
Qed.

End Registration.

(** ** Attaching the menu listeners *)

Section Attaching.

Import MenuInit.

Lemma dataset_is_true_set (name : string) (el : Element) :
  dataset_is_true name (setAttribute name "true" el) = true.
Proof.
  unfold dataset_is_true, getAttribute, setAttribute. simpl.
  by rewrite lookup_insert_eq.
Qed.

(** X1: [initMenu] attaches its listeners once.  Run again on the page it
    has initialized it changes nothing; with the toggle or the list
    missing, or with either data flag already "true", it changes nothing;
    otherwise it sets both flags and attaches the pointer-down listener
    (or touch-start and click without pointer events), the key listener
    and the two document listeners after the ones already there. *)
Theorem initMenu_attaches_once (env : Env) :
  initMenu (initMenu env) = initMenu env
  ∧ match toggle env, navUl env with
    | Some tg, Some ul =>
        if dataset_is_true "data-_menu-attached" tg
           || dataset_is_true "data-toggle-attached" tg
        then initMenu env = env
        else attached (initMenu env)
             = (attached env
                  ++ (if PointerEvent env then [TogglePointerdown]
                      else [ToggleTouchstart; ToggleClick])
                  ++ [ToggleKeydown; DocumentClick; DocumentKeydown])%list
             ∧ (∃ tg', toggle (initMenu env) = Some tg'
                       ∧ dataset_is_true "data-_menu-attached" tg' = true
                       ∧ dataset_is_true "data-toggle-attached" tg' = true
                       ∧ classList tg' = classList tg
                       ∧ textContent tg' = textContent tg)
    | _, _ => initMenu env = env
    end.
Proof.
  unfold initMenu.
  destruct (toggle env) as [tg|] eqn:Ht; [|by rewrite Ht].
  destruct (navUl env) as [ul|] eqn:Hu; [|by rewrite Ht, Hu].
  destruct (dataset_is_true "data-_menu-attached" tg
            || dataset_is_true "data-toggle-attached" tg) eqn:Hf.
  - by rewrite Ht, Hu, Hf.
  - simpl. rewrite dataset_is_true_set, orb_true_r. split; [done|].
    split; [done|]. eexists. split; [done|].
    repeat split; try apply dataset_is_true_set.
    unfold dataset_is_true, getAttribute, setAttribute. simpl.
    rewrite lookup_insert_ne by done. by rewrite lookup_insert_eq.
Qed.

(** The listeners attached on a fresh page are the listeners the dispatch
    runs on the toggle, and on the document the outside-click or the
    Escape listener. *)
Lemma initMenu_listeners_are_dispatched (tg ul : Element) (pe : bool) (t : Z)
    (e : Event) :
  dataset_is_true "data-_menu-attached" tg = false →
  dataset_is_true "data-toggle-attached" tg = false →
  let env := initMenu (mkEnv (Some tg) (Some ul) pe []) in
  listeners_for env true t e = Nav.toggle_listeners pe t e
  ∧ listeners_for env false t e
    = match type e with
      | click => [Nav.closeOnOutsideClick e]
      | keydown => [Nav.closeOnEscape e]
      | _ => []
      end.
Proof.
  intros H1 H2 env. subst env. unfold initMenu. simpl. rewrite H1, H2. simpl.
  unfold listeners_for, Nav.toggle_listeners. simpl.
  destruct pe, (type e); done.
Qed.

End Attaching.

(** ** The progress observer *)

Section Observer.

Import ProgressObserver.

Lemma callback_disconnected (entries : list bool) (s : State) :
  animated s = true → callback entries s = s.
Proof.
  intros Ha. unfold callback. induction entries as [|x r IH]; [done|].
  simpl. unfold onEntry at 2. rewrite Ha, andb_false_r. apply IH.
Qed.

Lemma callback_fresh (entries : list bool) (bs : list Element) :
  callback entries (mkState bs false true [])
  = if existsb id entries
    then mkState bs true false (Progress.animateProgressBars bs)
    else mkState bs false true [].
Proof.
  unfold callback. induction entries as [|x r IH]; [done|].
  destruct x; simpl.
  - unfold onEntry at 2. simpl. by apply callback_disconnected.
  - apply IH.
Qed.

Lemma notify_all_cons (x : list bool) (r : list (list bool)) (s : State) :
  notify_all (x :: r) s = notify_all r (notify x s).
Proof. reflexivity. Qed.

(** X2: the bars are animated at most once.  With the container on the
    page, whatever batches of entries the observer is notified with, the
    intervals are started exactly when some entry is intersecting, one
    interval per bar, and never a second time; without the container they
    are started at once. *)
Theorem progress_animation_starts_once (habilidades : bool) (bs : list Element)
    (batches : list (list bool)) :
  let s := notify_all batches (initProgressObserver habilidades bs) in
  intervals s
  = (if negb habilidades || existsb (existsb id) batches
     then Progress.animateProgressBars bs else [])
  ∧ observing s = habilidades && negb (existsb (existsb id) batches)
  ∧ (length (intervals s) ≤ length bs)%nat.
Proof.
  intros s.
  assert (Hdone : ∀ bts q, observing q = false → notify_all bts q = q).
  { induction bts as [|x r IH]; intros q Hq; [done|].
    rewrite notify_all_cons. unfold notify at 1. rewrite Hq. by apply IH. }
  assert (H : s = if habilidades
                  then if existsb (existsb id) batches
                       then mkState bs true false (Progress.animateProgressBars bs)
                       else mkState bs false true []
                  else mkState bs false false (Progress.animateProgressBars bs)).
  { subst s. unfold initProgressObserver. destruct habilidades.
    - induction batches as [|x r IH]; [done|].
      rewrite notify_all_cons. unfold notify at 1. simpl. rewrite callback_fresh.
      destruct (existsb id x); simpl; [by apply Hdone | apply IH].
    - by apply Hdone. }
  rewrite H. unfold Progress.animateProgressBars.
  destruct habilidades, (existsb (existsb id) batches); simpl;
    rewrite ?length_fmap; repeat split; lia.
Qed.

End Observer.

(** ** The download links *)

Section DownloadButtons.

Import Download.

Implicit Types (s : State) (ev : Ev) (evs : list Ev).

(** The class list of the link after any events: the original list, with
    "pressed" at its end or not. *)
Lemma run_classes evs s :
  pressed s = false →
  btn (run evs s) = btn s ∨ btn (run evs s) = classList_add "pressed" (btn s).
Proof.
  intros Hp. unfold run.
  assert (G : ∀ q, (btn q = btn s ∨ btn q = classList_add "pressed" (btn s)) →
                   btn (foldl (λ q ev, handle ev q) q evs) = btn s
                   ∨ btn (foldl (λ q ev, handle ev q) q evs)
                     = classList_add "pressed" (btn s)).
  { induction evs as [|ev r IH]; intros q Hq; [done|].
    simpl. apply IH.
    assert (Hadd : btn (add q) = classList_add "pressed" (btn s)).
    { unfold add; simpl. destruct Hq as [->| ->]; [done|].
      unfold classList_add at 1, tokens_add.
      pose proof (contains_add "pressed" (btn s)) as Hc.
      unfold classList_contains in Hc. rewrite Hc. by destruct (classList_add _ _). }
    assert (Hrem : ∀ k, btn (remove (mkState (btn q) k)) = btn s).
    { intros k. unfold remove; simpl. destruct Hq as [->| ->].
      - by apply contains_false_remove.
      - rewrite remove_add. by apply contains_false_remove. }
    destruct ev; simpl; try (by right); try (by left; apply (Hrem (pending q)));
      try done.
    destruct (pending q); [done | by left]. }
  apply G. by left.
Qed.

(** X3: the pressed state never disturbs the link.  From a link that is
    not pressed, after any sequence of events and timer firings the link
    is the original element, or the original with the class "pressed"
    added; the classes, attributes and text it had are all kept. *)
Theorem download_pressed_only (evs : list Ev) (s : State) :
  pressed s = false →
  btn (run evs s) = (if pressed (run evs s) then classList_add "pressed" (btn s)
                     else btn s).
Proof.
  intros Hp. unfold pressed at 1.
  destruct (run_classes evs s Hp) as [-> | ->].
  - unfold pressed in Hp. by rewrite Hp.
  - by rewrite contains_add.
Qed.

Lemma download_pressed_only_witness :
  let s := mkState (mkElement ["btn"] {["href" := "cv.pdf"]} "Descargar CV" ∅) 0 in
  btn (run [Mousedown; Click; Mouseleave; Touchstart] s)
  = mkElement ["btn"; "pressed"] {["href" := "cv.pdf"]} "Descargar CV" ∅.
Proof.
  intros s. exact (download_pressed_only [Mousedown; Click; Mouseleave; Touchstart] s eq_refl).
Defined.

Lemma no_press_keeps_unpressed evs s :
  forallb (λ ev, negb (is_press ev)) evs = true →
  pressed s = false → pressed (run evs s) = false.
Proof.
  unfold run. revert s. induction evs as [|ev r IH]; intros s Hall Hp; [done|].
  simpl in Hall. apply andb_true_iff in Hall as [Hev Hr]. simpl. apply IH; [done|].
  unfold pressed in *.
  destruct ev; simpl in *; try done; try apply contains_remove.
  destruct (pending s); [done | apply contains_remove].
Qed.

(** X4: the click timer releases a link that got no release event.  After
    a click, once a pending timer fires and no press came in between, the
    link is not pressed, whatever happened before the click. *)
Theorem download_click_timer_releases (before between : list Ev) (s : State) :
  forallb (λ ev, negb (is_press ev)) between = true →
  pressed (run (before ++ Click :: between ++ [Timeout]) s) = false.
Proof.
  intros Hall. unfold run. rewrite foldl_app. simpl. rewrite foldl_app. simpl.
  set (q := foldl (λ q ev, handle ev q) s before).
  assert (G : ∀ r, (0 < pending r)%nat ∨ pressed r = false →
                   pressed (handle Timeout (foldl (λ q ev, handle ev q) r between))
                   = false).
  { revert Hall. clear. induction between as [|ev evs IH]; intros Hall r Hr.
    - simpl. unfold pressed in *. destruct (pending r) eqn:E.
      + destruct Hr as [Hr|Hr]; [lia | done].
      + apply contains_remove.
    - simpl in Hall. apply andb_true_iff in Hall as [Hev Hall].
      simpl. apply IH; [done|]. unfold pressed in *.
      destruct ev; simpl in *; try done; try (right; apply contains_remove).
      + left. lia.
      + destruct (pending r) eqn:E; [|right; apply contains_remove].
        destruct Hr as [Hr|Hr]; [lia | by right]. }
  apply G. left. simpl. lia.
Qed.

Lemma download_click_timer_releases_witness :
  let s := mkState (mkElement ["btn"] ∅ "Descargar CV" ∅) 0 in
  pressed (run ([Mousedown] ++ Click :: [Click; Mouseleave] ++ [Timeout]) s) = false.
Proof.
  intros s. exact (download_click_timer_releases [Mousedown] [Click; Mouseleave] s eq_refl).
Defined.

End DownloadButtons.

(** ** Cards *)

Section CardFlips.

Import Cards.

Implicit Types (card : Element) (ev : Ev) (evs : list Ev).

(** Toggling a class that is absent and toggling again gives the element
    back; toggling one that was added removes it again. *)
Lemma toggle_absent (c : string) (el : Element) :
  classList_contains c el = false →
  fst (classList_toggle c el) = classList_add c el
  ∧ fst (classList_toggle c (classList_add c el)) = el.
Proof.
  intros Hc. unfold classList_toggle. rewrite Hc, contains_add. simpl.
  split; [done|]. rewrite remove_add. by apply contains_false_remove.
Qed.

(** X5: flipping is a two-state round trip.  From a card that is not
    flipped, after any sequence of clicks and key presses the card is the
    original element when the number of clicks, Enter and Space presses is
    even, and the original with the class "is-flipped" added when it is
    odd; other keys change nothing. *)
Theorem card_flip_parity (evs : list Ev) (card : Element) :
  flipped card = false →
  run evs card
  = if Nat.even (length (filter (λ ev, activates ev = true) evs))
    then card else classList_add "is-flipped" card.
Proof.
  intros Hf. unfold run.
  destruct (toggle_absent "is-flipped" card Hf) as [H1 H2].
  assert (G : ∀ (b : bool) c,
             c = (if b then card else classList_add "is-flipped" card) →
             foldl (λ c ev, fst (handle ev c)) c evs
             = if Bool.eqb b (Nat.even (length (filter (λ ev, activates ev = true) evs)))
               then card else classList_add "is-flipped" card).
  { induction evs as [|ev r IH]; intros b c Hc.
    - simpl. by destruct b.
    - simpl. rewrite filter_cons.
      assert (Hstep : fst (handle ev c)
                      = if Bool.eqb b (negb (activates ev)) then card
                        else classList_add "is-flipped" card).
      { unfold handle, activates. subst c.
        destruct ev as [|k]; [|destruct (String.eqb k "Enter" || String.eqb k " ")];
          destruct b; simpl; done. }
      rewrite (IH (Bool.eqb b (negb (activates ev))) _ Hstep).
      destruct (decide (activates ev = true)) as [Ha|Ha].
      + rewrite Ha. simpl length. rewrite Nat.even_succ, <- Nat.negb_even.
        by destruct b, (Nat.even _).
      + apply not_true_is_false in Ha. rewrite Ha.
        by destruct b, (Nat.even _). }
  rewrite (G true card eq_refl). by destruct (Nat.even _).
Qed.

Lemma card_flip_parity_witness :
  let card := mkElement ["card"] {["tabindex" := "0"]} "Proyecto" ∅ in
  run [Click; Keydown "Tab"; Keydown " "] card = card.
Proof.
  intros card. exact (card_flip_parity [Click; Keydown "Tab"; Keydown " "] card eq_refl).
Defined.

(** The key listener of a card prevents the default action exactly for
    Enter and Space, the keys that flip it; a click is never prevented,
    and any other key leaves card and event alone. *)
Lemma card_key_prevents_default (ev : Ev) (card : Element) :
  snd (handle ev card)
  = match ev with
    | Click => false
    | Keydown k => activates ev
    end
  ∧ (activates ev = false → handle ev card = (card, false))
  ∧ (activates ev = true → flipped (fst (handle ev card)) = negb (flipped card)).
Proof.
  unfold handle, activates, flipped. destruct ev as [|k]; simpl.
  - repeat split; [done|]. intros _.
    by destruct (classList_toggle_flag "is-flipped" card).
  - destruct (String.eqb k "Enter" || String.eqb k " "); simpl;
      repeat split; try done.
    intros _. by destruct (classList_toggle_flag "is-flipped" card).
Qed.

(** X6: after [initCards] every card can take the keyboard focus: it has
    a tabindex, the one it had before or "0"; nothing else on the card
    changes, and initializing again changes nothing. *)
Theorem initCards_tabindex (cards : list Element) :
  initCards (initCards cards) = initCards cards
  ∧ length (initCards cards) = length cards
  ∧ ∀ i card, cards !! i = Some card →
      ∃ card', initCards cards !! i = Some card'
        ∧ getAttribute "tabindex" card'
          = Some (default "0" (getAttribute "tabindex" card))
        ∧ classList card' = classList card
        ∧ textContent card' = textContent card
        ∧ style card' = style card
        ∧ ∀ n, n ≠ "tabindex" → getAttribute n card' = getAttribute n card.
Proof.
  unfold initCards. repeat split.
  - rewrite <- list_fmap_compose. apply list_fmap_ext. intros i card _. simpl.
    unfold initCard at 2. destruct (getAttribute "tabindex" card) eqn:E.
    + unfold initCard. by rewrite E.
    + unfold getAttribute in E. unfold initCard, getAttribute, setAttribute. simpl.
      by rewrite lookup_insert_eq, E.
  - apply length_fmap.
  - intros i card Hi. rewrite list_lookup_fmap, Hi. simpl. eexists. split; [done|].
    unfold initCard. destruct (getAttribute "tabindex" card) eqn:E; simpl.
    + by rewrite E.
    + unfold getAttribute, setAttribute. simpl. rewrite lookup_insert_eq.
      repeat split; try done. intros n Hn. by rewrite lookup_insert_ne.
Qed.

Lemma initCards_tabindex_witness :
  let cards := [mkElement ["card"] ∅ "A" ∅; mkElement ["card"] {["tabindex" := "3"]} "B" ∅] in
  ∃ card', initCards cards !! 1%nat = Some card'
           ∧ getAttribute "tabindex" card' = Some "3".
Proof.
  intros cards.
  destruct (initCards_tabindex cards) as (_ & _ & H).
  destruct (H 1%nat _ eq_refl) as (card' & H1 & H2 & _).
  exists card'. split; [exact H1 | exact H2].
Defined.

End CardFlips.

(** ** The map toggle, click after click *)

Section MapClickRuns.

Import MapClicks.

(** X7: after any number of clicks on the map toggle, starting collapsed,
    the container is the original one when the number is even and the
    original with "expanded" added when it is odd, and after at least one
    click the label always names the move back: "Ver mapa compacto" while
    expanded, "Ver mapa completo" while collapsed. *)
Theorem map_toggle_parity (views : list (Z * Z)) (s : MapToggle.State) :
  expanded s = false →
  let s' := clicks views s in
  MapToggle.mapResponsive s'
  = (if Nat.even (length views) then MapToggle.mapResponsive s
     else classList_add "expanded" (MapToggle.mapResponsive s))
  ∧ expanded s' = Nat.odd (length views)
  ∧ (views ≠ [] →
     textContent (MapToggle.mapToggleBtn s')
     = if expanded s' then "Ver mapa compacto" else "Ver mapa completo").
Proof.
  intros Hc s'. subst s'.
  assert (G : ∀ (b : bool) q,
             MapToggle.mapResponsive q
             = (if b then MapToggle.mapResponsive s
                else classList_add "expanded" (MapToggle.mapResponsive s)) →
             MapToggle.mapResponsive (clicks views q)
             = (if Bool.eqb b (Nat.even (length views)) then MapToggle.mapResponsive s
                else classList_add "expanded" (MapToggle.mapResponsive s))
             ∧ (views ≠ [] →
                textContent (MapToggle.mapToggleBtn (clicks views q))
                = if Bool.eqb b (Nat.even (length views)) then "Ver mapa completo"
                  else "Ver mapa compacto")).
  { induction views as [|[r y] vs IH]; intros b q Hq.
    - simpl. split; [by destruct b | done].
    - change (clicks ((r, y) :: vs) q) with (clicks vs (fst (MapToggle.onClick r y q))).
      assert (Hexp : expanded q = negb b).
      { unfold expanded. rewrite Hq. destruct b; [done | apply contains_add]. }
      assert (Hq' : fst (MapToggle.onClick r y q)
                    = MapToggle.mkState
                        (set_textContent (if b then "Ver mapa compacto"
                                          else "Ver mapa completo")
                                         (MapToggle.mapToggleBtn q))
                        (if b then classList_add "expanded" (MapToggle.mapResponsive s)
                         else MapToggle.mapResponsive s)).
      { unfold expanded in Hexp. destruct b; simpl in Hexp.
        - rewrite onClick_collapsed by done. by rewrite Hq.
        - rewrite onClick_expanded by done. rewrite Hq, remove_add.
          by rewrite (contains_false_remove _ _ Hc). }
      destruct (IH (negb b) (fst (MapToggle.onClick r y q))) as [I1 I2].
      + rewrite Hq'. by destruct b.
      + simpl length. rewrite Nat.even_succ, <- Nat.negb_even.
        split.
        * rewrite I1. by destruct b, (Nat.even (length vs)).
        * intros _. destruct vs as [|v vs'].
          -- unfold clicks. rewrite Hq'. by destruct b.
          -- rewrite I2 by done. by destruct b, (Nat.even (length (v :: vs'))). }
  destruct (G true s eq_refl) as [G1 G2].
  assert (Hb : ∀ x : bool, Bool.eqb true x = x) by (by intros []).
  rewrite Hb in G1, G2.
  assert (He : expanded (clicks views s) = Nat.odd (length views)).
  { unfold expanded in *. rewrite G1, <- Nat.negb_even.
    destruct (Nat.even (length views)); simpl; [done | apply contains_add]. }
  split; [exact G1|]. split; [exact He|].
  intros Hv. rewrite (G2 Hv), He, <- Nat.negb_even.
  by destruct (Nat.even (length views)).
Qed.

Lemma map_toggle_parity_witness :
  let s := MapToggle.mkState (mkElement [] ∅ "Ver mapa" ∅)
                             (mkElement ["map-responsive"] ∅ "" ∅) in
  textContent (MapToggle.mapToggleBtn (clicks [(500, 0); (80, 420); (500, 0)] s))
  = "Ver mapa compacto".
Proof.
  intros s.
  destruct (map_toggle_parity [(500, 0); (80, 420); (500, 0)] s eq_refl) as (_ & _ & H).
  apply H. discriminate.
Defined.

End MapClickRuns.

(** ** The address behind the copy button *)

Section EmailAddress.

Import Contact.

(** X8: the address copied is the href of the e-mail link without its
    "mailto:" prefix; when the link has no href, an empty one, or nothing
    after "mailto:", the [data-email] attribute is used, and without it
    the address is undefined. *)
Theorem email_of_link (s : State) :
  (getAttribute "href" (emailLink s) = None
   ∨ getAttribute "href" (emailLink s) = Some "" →
   email s = getAttribute "data-email" (emailLink s))
  ∧ ∀ a, getAttribute "href" (emailLink s) = Some ("mailto:" +:+ a) →
         email s = if JS.truthy a then Some a
                   else getAttribute "data-email" (emailLink s).
Proof.
  split.
  - unfold email. by intros [-> | ->].
  - intros a Ha. unfold email. rewrite Ha. by destruct a.
Qed.

Lemma email_of_link_witness :
  let s := mkState None (mkElement [] {["href" := "mailto:hola@example.com"]} "" ∅)
             (mkElement [] ∅ "" ∅) Resolves [] [] false in
  let s' := mkState None (mkElement [] {["data-email" := "hola@example.com"]} "" ∅)
              (mkElement [] ∅ "" ∅) Resolves [] [] false in
  email s = Some "hola@example.com" ∧ email s' = Some "hola@example.com".
Proof.
  intros s s'. split.
  - exact (proj2 (email_of_link s) "hola@example.com" eq_refl).
  - exact (proj1 (email_of_link s') (or_introl eq_refl)).
Defined.

End EmailAddress.

(** ** The life of a toast *)

Section ToastLife.

Import Contact ToastTimers.

Implicit Types (s : State) (t : Element) (msg : string) (d : Z).

Lemma showToast_state msg d s t :
  toast s = Some t →
  exec (showToast msg d) s
  = mkState (Some (set_style "opacity" "1"
                     (classList_remove "sr-only" (set_textContent msg t))))
            (emailLink s) (form s) (clipboard s) (written s)
            (timers s ++ [(d, FadeOut)]) (defaultPrevented s).
Proof.
  intros Ht. unfold showToast, setTimeout, set_toast. step_handler. by rewrite Ht.
Qed.

(** X9: a toast runs its course.  Shown on a page with no timer pending,
    it leaves one timer for the fade after the given duration; when that
    fires the toast is transparent but not yet hidden, and one timer of
    300 ms is left; when that fires the toast is hidden, keeps its text,
    and no timer is left. *)
Theorem toast_shows_fades_hides msg d s t :
  toast s = Some t →
  timers s = [] →
  let s1 := exec (showToast msg d) s in
  let s2 := exec (fire_pending 0) s1 in
  let s3 := exec (fire_pending 0) s2 in
  (toast_shows msg s1 ∧ timers s1 = [(d, FadeOut)])
  ∧ ((∃ t2, toast s2 = Some t2 ∧ textContent t2 = msg
            ∧ style t2 !! "opacity" = Some "0"
            ∧ classList_contains "sr-only" t2 = false)
     ∧ timers s2 = [(300, Hide)])
  ∧ (toast_hidden msg s3 ∧ timers s3 = []).
Proof.
  intros Ht Hq s1 s2 s3. subst s3 s2 s1. rewrite (showToast_state msg d s t Ht), Hq.
  unfold fire_pending, fire, setTimeout, set_toast, toast_shows, toast_hidden.
  step_handler. repeat split.
  - eexists. repeat split; [apply (contains_remove "sr-only" (set_textContent msg t))|].
    apply lookup_insert_eq.
  - eexists. repeat split; [apply lookup_insert_eq|].
    apply (contains_remove "sr-only" (set_textContent msg t)).
  - eexists. repeat split; [apply contains_add | apply lookup_insert_eq].
Qed.

Lemma toast_shows_fades_hides_witness :
  let s := mkState (Some (mkElement ["toast"; "sr-only"] ∅ "" ∅))
             (mkElement [] ∅ "" ∅) (mkElement [] ∅ "" ∅) Resolves [] [] false in
  toast_hidden "Enviando mensaje..."
    (exec (fire_pending 0) (exec (fire_pending 0)
       (exec (showToast "Enviando mensaje..." 3000) s))).
Proof.
  intros s.
  destruct (toast_shows_fades_hides "Enviando mensaje..." 3000 s _ eq_refl eq_refl)
    as (_ & _ & H & _).
  exact H.
Defined.

(** X10: timers are never cancelled.  When a second toast is shown before
    the first has faded, and the fade and hide timers of the first then
    fire, the second toast is hidden with its text in place while its own
    fade timer is still pending. *)
Theorem stale_timers_hide_new_toast (m1 m2 : string) (d1 d2 : Z) s t :
  toast s = Some t →
  timers s = [] →
  let s2 := exec (showToast m2 d2) (exec (showToast m1 d1) s) in
  let s3 := exec (fire_pending 0) s2 in
  let s4 := exec (fire_pending 1) s3 in
  timers s2 = [(d1, FadeOut); (d2, FadeOut)]
  ∧ timers s3 = [(d2, FadeOut); (300, Hide)]
  ∧ toast_hidden m2 s4
  ∧ timers s4 = [(d2, FadeOut)].
Proof.
  intros Ht Hq s2 s3 s4. subst s4 s3 s2.
  rewrite (showToast_state m1 d1 s t Ht), Hq.
  erewrite showToast_state by done.
  unfold fire_pending, fire, setTimeout, set_toast, toast_hidden.
  step_handler. repeat split.
  eexists. repeat split; [apply contains_add | apply lookup_insert_eq].
Qed.

Lemma stale_timers_hide_new_toast_witness :
  let s := mkState (Some (mkElement ["toast"; "sr-only"] ∅ "" ∅))
             (mkElement [] ∅ "" ∅) (mkElement [] ∅ "" ∅) Resolves [] [] false in
  toast_hidden "Correo copiado al portapapeles"
    (exec (fire_pending 1) (exec (fire_pending 0)
       (exec (showToast "Correo copiado al portapapeles" 3000)
          (exec (showToast "Enviando mensaje..." 3000) s)))).
Proof.
  intros s.
  destruct (stale_timers_hide_new_toast "Enviando mensaje..."
              "Correo copiado al portapapeles" 3000 3000 s _ eq_refl eq_refl)
    as (_ & _ & H & _).
  exact H.
Defined.

(** X11: a page without the toast element still gets the form guard and
    the clipboard write.  Submitting cancels the submission exactly when
    no action is configured and changes nothing else; the copy click
    returns normally and only writes the address when the clipboard
    accepts it; no timer is started. *)
Theorem no_toast_element s :
  toast s = None →
  (returns onSubmit s = true
   ∧ exec onSubmit s
     = if configured s then s
       else mkState None (emailLink s) (form s) (clipboard s) (written s)
                    (timers s) true)
  ∧ (returns onCopyClick s = true
     ∧ exec onCopyClick s
       = match clipboard s with
         | Resolves =>
             mkState None (emailLink s) (form s) Resolves
                     (written s ++ [default "undefined" (email s)])
                     (timers s) (defaultPrevented s)
         | _ => s
         end).
Proof.
  intros Ht. split.
  - unfold exec, returns. rewrite onSubmit_cases.
    destruct (configured s).
    + by rewrite showToast_no_toast.
    + unfold preventDefault, showToast. step_handler. by rewrite Ht.
  - unfold exec, returns. rewrite onCopyClick_cases.
    destruct (clipboard s) eqn:Hc.
    + by rewrite showToast_no_toast.
    + by rewrite showToast_no_toast.
    + unfold log_written, showToast. step_handler. rewrite Ht. simpl.
      by rewrite Hc.
Qed.

Lemma no_toast_element_witness :
  let s := mkState None (mkElement [] {["href" := "mailto:hola@example.com"]} "" ∅)
             (mkElement [] ∅ "" ∅) Resolves [] [] false in
  defaultPrevented (exec onSubmit s) = true
  ∧ written (exec onCopyClick s) = ["hola@example.com"].
Proof.
  intros s. destruct (no_toast_element s eq_refl) as [[_ H1] [_ H2]].
  split.
  - exact (f_equal defaultPrevented H1).
  - exact (f_equal written H2).
Defined.

End ToastLife.

(** ** The progress counter, step by step *)

Section ProgressSteps.

Import Progress.

(** The animation after [n] firings, in closed form. *)
Lemma ticks_state (b : Element) (n : nat) :
  ticks n (start b)
  = mkAnim (if 0 <? Z.min (Z.of_nat n) (Z.max 0 (read_target b))
            then render (Z.min (Z.of_nat n) (Z.max 0 (read_target b))) b else b)
           (read_target b)
           (Z.min (Z.of_nat n) (Z.max 0 (read_target b)))
           (Z.of_nat n <=? Z.max 0 (read_target b)).
Proof.
  induction n as [|n IH].
  - assert (Z.min (Z.of_nat 0) (Z.max 0 (read_target b)) = 0) as -> by lia.
    assert ((Z.of_nat 0 <=? Z.max 0 (read_target b)) = true) as ->
      by (apply Z.leb_le; lia).
    done.
  - unfold ticks in *. rewrite Nat.iter_succ, IH. unfold tick.
    simpl scheduled. simpl target. simpl w. simpl bar.
    destruct (Z.leb_spec (Z.of_nat n) (Z.max 0 (read_target b))) as [Hn|Hn].
    + assert (Z.min (Z.of_nat n) (Z.max 0 (read_target b)) = Z.of_nat n) as -> by lia.
      destruct (Z.leb_spec (read_target b) (Z.of_nat n)) as [Ht|Ht].
      * assert (Z.min (Z.of_nat (S n)) (Z.max 0 (read_target b)) = Z.of_nat n) as ->
          by lia.
        assert ((Z.of_nat (S n) <=? Z.max 0 (read_target b)) = false) as ->
          by (apply Z.leb_gt; lia).
        done.
      * assert (Z.min (Z.of_nat (S n)) (Z.max 0 (read_target b)) = Z.of_nat n + 1) as ->
          by lia.
        assert ((Z.of_nat (S n) <=? Z.max 0 (read_target b)) = true) as ->
          by (apply Z.leb_le; lia).
        assert ((0 <? Z.of_nat n + 1) = true) as -> by (apply Z.ltb_lt; lia).
        destruct (0 <? Z.of_nat n); [by rewrite render_render | done].
    + assert (Z.min (Z.of_nat (S n)) (Z.max 0 (read_target b))
              = Z.min (Z.of_nat n) (Z.max 0 (read_target b))) as -> by lia.
      assert ((Z.of_nat (S n) <=? Z.max 0 (read_target b)) = false) as ->
        by (apply Z.leb_gt; lia).
      done.
Qed.

(** X12: the counter climbs by one per firing and stops at the target.
    After any number [n] of firings the counter is the smaller of [n] and
    the target (0 for a target below 0), it never passes the target, the
    bar shows the counter as text and width once it is above 0, and the
    interval is cleared exactly from firing [target + 1] on.  Targets up
    to 2^53, where the counter is exact. *)
Theorem progress_counter_steps (b : Element) (n : nat) :
  read_target b ≤ JS.MAX_EXACT →
  let a := ticks n (start b) in
  w a = Z.min (Z.of_nat n) (Z.max 0 (read_target b))
  ∧ w a ≤ Z.max 0 (read_target b)
  ∧ (completed a ↔ Z.max 0 (read_target b) < Z.of_nat n)
  ∧ if 0 <? w a
    then textContent (bar a) = JS.toString (w a) +:+ "%"
         ∧ style (bar a) !! "width" = Some (JS.toString (w a) +:+ "%")
    else bar a = b.
Proof.
  intros _ a. subst a. rewrite ticks_state. simpl. unfold completed. simpl.
  split; [done|]. split; [lia|]. split.
  - rewrite Z.leb_gt. done.
  - destruct (0 <? Z.min (Z.of_nat n) (Z.max 0 (read_target b))); [|done].
    simpl. split; [done | apply lookup_insert_eq].
Qed.

Lemma progress_counter_steps_witness :
  let b := mkElement ["progress-bar"] {["data-progress" := "73"]} "" ∅ in
  textContent (bar (ticks 20 (start b))) = "20%"
  ∧ style (bar (ticks 20 (start b))) !! "width" = Some "20%".
Proof.
  intros b.
  assert (H : read_target b ≤ JS.MAX_EXACT) by (vm_compute; discriminate).
  destruct (progress_counter_steps b 20 H) as (_ & _ & _ & H1).
  exact H1.
Defined.



End ProgressSteps.

(** ** Reading the target back from its numeral *)

Section Numerals.

Import Numeral.











End Numerals.

(** ** Closing and opening the menu *)

Section MenuEdges.

Import Nav.

Implicit Types (p q : Page) (e : Event) (t : Z) (doc : Document).

(** What closing does to a page. *)
Lemma close_effect q :
  let q' := exec (removeShow ;; setExpanded false) q in
  shown q' = false
  ∧ getAttribute "aria-expanded" (toggle q') = Some "false"
  ∧ navLinks q' = navLinks q ∧ lastTouch q' = lastTouch q
  ∧ defaultPrevented q' = defaultPrevented q.
Proof.
  unfold removeShow, setExpanded, shown, getAttribute. step_handler.
  by rewrite contains_remove, lookup_insert_eq.
Qed.

Lemma closeOnEscape_cases e q :
  exec (closeOnEscape e) q
  = if String.eqb (key e) "Escape" && shown q
    then exec (removeShow ;; setExpanded false) q else q.
Proof.
  unfold closeOnEscape. step_handler.
  by destruct (String.eqb (key e) "Escape" && shown q).
Qed.

Lemma closeOnOutsideClick_cases e q :
  exec (closeOnOutsideClick e) q
  = if shown q && negb (closestNav (target e))
    then exec (removeShow ;; setExpanded false) q else q.
Proof.
  unfold closeOnOutsideClick. step_handler.
  destruct (shown q); simpl; [|done]. by destruct (closestNav (target e)).
Qed.

(** X15: Escape always leaves the menu closed.  Wherever the key is
    pressed, with either registration, the list is hidden afterwards; an
    open menu gets [aria-expanded] "false", a closed one is left as it
    was; the links and the touch timestamp are never touched. *)
Theorem escape_closes_menu (pe : bool) doc t (pt : PointerType) (tg : Target) p :
  let p' := dispatch pe doc t (mkEvent keydown pt "Escape" tg) p in
  shown p' = false
  ∧ (if shown p then getAttribute "aria-expanded" (toggle p') = Some "false"
     else p' = set_defaultPrevented false p)
  ∧ navLinks p' = navLinks p
  ∧ lastTouch p' = lastTouch p.
Proof.
  intros p'. set (q := set_defaultPrevented false p).
  assert (Hp' : p' = exec (closeOnEscape (mkEvent keydown pt "Escape" tg)) q).
  { subst p'. unfold dispatch. simpl. by destruct (onToggle tg). }
  rewrite Hp', closeOnEscape_cases. simpl.
  replace (shown q) with (shown p) by (by destruct p).
  destruct (shown p) eqn:Hs.
  - destruct (close_effect q) as (H1 & H2 & H3 & H4 & _).
    repeat split; try done; by destruct p.
  - repeat split; try done; subst q; by destruct p.
Qed.

(** X16: a click outside [nav] always leaves the menu closed, with
    [aria-expanded] "false" when it was open, while a click inside [nav]
    that is neither on the toggle nor on a link changes nothing. *)
Theorem outside_click_closes_menu (pe : bool) doc t (pt : PointerType) (k : string) p :
  let outside := dispatch pe doc t (mkEvent click pt k (mkTarget false false None)) p in
  let inside := dispatch pe doc t (mkEvent click pt k (mkTarget false true None)) p in
  shown outside = false
  ∧ (if shown p then getAttribute "aria-expanded" (toggle outside) = Some "false"
     else outside = set_defaultPrevented false p)
  ∧ navLinks outside = navLinks p
  ∧ lastTouch outside = lastTouch p
  ∧ inside = set_defaultPrevented false p.
Proof.
  intros outside inside. set (q := set_defaultPrevented false p).
  assert (Ho : outside
               = exec (closeOnOutsideClick (mkEvent click pt k (mkTarget false false None))) q)
    by done.
  assert (Hi : inside
               = exec (closeOnOutsideClick (mkEvent click pt k (mkTarget false true None))) q)
    by done.
  rewrite Ho, Hi, !closeOnOutsideClick_cases. simpl.
  replace (shown q) with (shown p) by (by destruct p).
  rewrite andb_false_r, andb_true_r.
  destruct (shown p) eqn:Hs.
  - destruct (close_effect q) as (H1 & H2 & H3 & H4 & _).
    repeat split; try done; by destruct p.
  - repeat split; try done; subst q; by destruct p.
Qed.

(** X17: the keyboard is never filtered.  Enter or Space on the toggle
    flips the menu at any time, even right after a touch, with either
    registration: the list changes visibility, [aria-expanded] follows,
    the default action is prevented and the touch timestamp is left
    alone. *)
Theorem keyboard_always_toggles (pe : bool) doc t (pt : PointerType) (k : string)
    (nav : bool) (link : option nat) p :
  k = "Enter" ∨ k = " " →
  let p' := dispatch pe doc t (mkEvent keydown pt k (mkTarget true nav link)) p in
  shown p' = negb (shown p)
  ∧ synced p'
  ∧ lastTouch p' = lastTouch p
  ∧ defaultPrevented p' = true.
Proof.
  intros Hk p'. set (e := mkEvent keydown pt k (mkTarget true nav link)).
  set (q := set_defaultPrevented true (set_defaultPrevented false p)).
  assert (Hf : filtered t e q = false) by done.
  assert (Hp' : p' = exec (toggleMenu t e) q).
  { subst p'. unfold dispatch. simpl. rewrite closeOnEscape_cases.
    unfold onToggleKeydown, preventDefault. simpl key.
    assert (Hb : String.eqb k "Enter" || String.eqb k " " = true)
      by (by destruct Hk as [-> | ->]).
    assert (He : String.eqb k "Escape" = false) by (by destruct Hk as [-> | ->]).
    rewrite Hb, He. simpl. by rewrite exec_seq_modify. }
  destruct (toggleMenu_passes t e q Hf) as (_ & Hs & Hy & _ & Hl & Hd).
  rewrite Hp'. repeat split; try done; by destruct p.
Qed.

Lemma keyboard_always_toggles_witness :
  let p := mkPage (mkElement ["menu-toggle"] {["aria-expanded" := "false"]} "" ∅)
                  (mkElement [] ∅ "" ∅) [] 1700000000000 false [] in
  shown (dispatch true (mkDocument (λ _, Ok None)) 1700000000100
           (mkEvent keydown mouse " " (mkTarget true true None)) p) = true.
Proof.
  intros p.
  destruct (keyboard_always_toggles true (mkDocument (λ _, Ok None)) 1700000000100
              mouse " " true None p (or_intror eq_refl)) as (H & _).
  exact H.
Defined.

(** X18: the toggle has to sit inside [nav].  With either registration, a
    click on a toggle that is outside [nav] leaves the menu closed:
    whatever [toggleMenu] did, the outside-click listener then hides the
    list. *)
Theorem click_on_toggle_outside_nav (pe : bool) doc t (pt : PointerType) (k : string) p :
  shown (dispatch pe doc t (mkEvent click pt k (mkTarget true false None)) p) = false.
Proof.
  set (e := mkEvent click pt k (mkTarget true false None)).
  assert (H : ∀ q, shown (exec (closeOnOutsideClick e) q) = false).
  { intros q. rewrite closeOnOutsideClick_cases. simpl. rewrite andb_true_r.
    destruct (shown q) eqn:Hs; [|done]. by destruct (close_effect q). }
  unfold dispatch. simpl. destruct pe; simpl; apply H.
Qed.

(** X19: with pointer events, mouse and pen are not rate-limited against
    themselves.  A pointer-down that is not of touch type never writes the
    touch timestamp, so two of them, at any distance of each other and
    both outside the window of the last touch, toggle the menu twice and
    bring its visibility back. *)
Theorem mouse_pointerdowns_toggle_twice doc t1 t2 (pt : PointerType) (k : string)
    (nav : bool) (link : option nat) p :
  pt ≠ touch →
  TOUCH_IGNORE_MS ≤ t1 - lastTouch p →
  TOUCH_IGNORE_MS ≤ t2 - lastTouch p →
  let e := mkEvent pointerdown pt k (mkTarget true nav link) in
  let p1 := dispatch true doc t1 e p in
  let p2 := dispatch true doc t2 e p1 in
  shown p1 = negb (shown p) ∧ shown p2 = shown p
  ∧ lastTouch p2 = lastTouch p ∧ synced p2.
Proof.
  intros Hpt H1 H2 e p1 p2.
  assert (Hd : ∀ t q, dispatch true doc t e q
                      = exec (toggleMenu t e) (set_defaultPrevented false q)).
  { intros t q. unfold dispatch. simpl. unfold onPointerdown. simpl.
    rewrite bool_decide_eq_false_2 by done. simpl. by rewrite exec_seq_ret. }
  assert (Hf : ∀ t q, TOUCH_IGNORE_MS ≤ t - lastTouch q →
                      filtered t e (set_defaultPrevented false q) = false).
  { intros t q Ht. unfold filtered. simpl. apply Z.ltb_ge. by destruct q. }
  destruct (toggleMenu_passes t1 e _ (Hf t1 p H1)) as (_ & Hs1 & _ & _ & Hl1 & _).
  rewrite <- Hd in Hs1, Hl1. fold p1 in Hs1, Hl1. simpl in Hl1.
  rewrite (bool_decide_eq_false_2 (pt = touch)) in Hl1 by done. simpl in Hl1.
  assert (Hl1' : lastTouch p1 = lastTouch p) by (rewrite Hl1; by destruct p).
  assert (H2' : TOUCH_IGNORE_MS ≤ t2 - lastTouch p1) by (by rewrite Hl1').
  destruct (toggleMenu_passes t2 e _ (Hf t2 p1 H2')) as (_ & Hs2 & Hy2 & _ & Hl2 & _).
  rewrite <- Hd in Hs2, Hl2, Hy2. fold p2 in Hs2, Hl2, Hy2. simpl in Hl2.
  rewrite (bool_decide_eq_false_2 (pt = touch)) in Hl2 by done. simpl in Hl2.
  assert (Hs1' : shown p1 = negb (shown p)) by (rewrite Hs1; by destruct p).
  repeat split; try done.
  - rewrite Hs2. replace (shown (set_defaultPrevented false p1)) with (shown p1)
      by (by destruct p1). rewrite Hs1'. by destruct (shown p).
  - rewrite Hl2. replace (lastTouch (set_defaultPrevented false p1)) with (lastTouch p1)
      by (by destruct p1). done.
Qed.

Lemma mouse_pointerdowns_toggle_twice_witness :
  let p := mkPage (mkElement ["menu-toggle"] {["aria-expanded" := "false"]} "" ∅)
                  (mkElement [] ∅ "" ∅) [] 0 false [] in
  let e := mkEvent pointerdown mouse "" (mkTarget true true None) in
  let doc := mkDocument (λ _, Ok None) in
  shown (dispatch true doc 1700000000000 e p) = true
  ∧ shown (dispatch true doc 1700000000050 e (dispatch true doc 1700000000000 e p)) = false.
Proof.
  intros p e doc.
  assert (Hm : mouse ≠ touch) by discriminate.
  assert (H1 : TOUCH_IGNORE_MS ≤ 1700000000000 - lastTouch p) by (vm_compute; discriminate).
  assert (H2 : TOUCH_IGNORE_MS ≤ 1700000000050 - lastTouch p) by (vm_compute; discriminate).
  destruct (mouse_pointerdowns_toggle_twice doc 1700000000000 1700000000050 mouse ""
              true None p Hm H1 H2) as (Ha & Hb & _).
  exact (conj Ha Hb).
Defined.

End MenuEdges.

(** ** What link clicks and scrolling do to the page *)

Section LinkEffects.

Import Nav.

Implicit Types (p : Page) (e : Event) (doc : Document) (l x : Element).

(** X20: everything a link click does when the target query returns.
    For a link whose href is not an anchor, or whose anchor the document
    can query, the listener returns; the clicked link is then the one
    active link and the list is hidden.  The default action is prevented
    exactly for an href starting with "#", the page scrolls to the target
    exactly when the query finds one, and neither the toggle (with its
    [aria-expanded]) nor the touch timestamp changes. *)
Theorem nav_click_effects doc e p (i : nat) (a : Element) (r : option Node) :
  closestNavLink (target e) = Some i →
  navLinks p !! i = Some a →
  (JS.startsWith "#" (JS.or_else (getAttribute "href" a) "") = true →
   querySelector doc (JS.or_else (getAttribute "href" a) "") = Ok r) →
  let anchor := JS.startsWith "#" (JS.or_else (getAttribute "href" a) "") in
  let p' := exec (onNavClick doc e) p in
  returns (onNavClick doc e) p = true
  ∧ (∀ j, active_at j p' ↔ j = i)
  ∧ shown p' = false
  ∧ defaultPrevented p' = (anchor || defaultPrevented p)
  ∧ scrolledIntoView p'
    = (scrolledIntoView p
         ++ (if anchor then match r with Some n => [n] | None => [] end else []))%list
  ∧ toggle p' = toggle p
  ∧ lastTouch p' = lastTouch p.
Proof.
  intros Hi Ha Hq anchor p'.
  assert (Hlen : (i < length (navLinks p))%nat) by (by eapply lookup_lt_Some).
  assert (H : returns (onNavClick doc e) p = true
              ∧ navLinks p' = mark (NavLink i) (navLinks p)
              ∧ shown p' = false
              ∧ defaultPrevented p' = (anchor || defaultPrevented p)
              ∧ scrolledIntoView p'
                = (scrolledIntoView p
                     ++ (if anchor then match r with Some n => [n] | None => [] end
                         else []))%list
              ∧ toggle p' = toggle p
              ∧ lastTouch p' = lastTouch p).
  { subst p' anchor. revert Hq.
    unfold onNavClick, clearActive, addActive, removeShow, preventDefault.
    rewrite Hi. step_handler. rewrite Ha. simpl. unfold shown.
    destruct (JS.startsWith "#" _); simpl.
    - intros Hq. rewrite (Hq eq_refl). simpl.
      destruct r as [n|]; simpl;
        destruct (classList_contains "show" (navUl p)) eqn:Hs; simpl;
        repeat split; try done; try apply contains_remove;
        by rewrite app_nil_r.
    - intros _. destruct (classList_contains "show" (navUl p)) eqn:Hs; simpl;
        repeat split; try done; try apply contains_remove;
        by rewrite app_nil_r. }
  destruct H as (H0 & Hm & H1 & H2 & H3 & H4 & H5).
  repeat split; try done; by apply (active_at_mark p p' i).
Qed.

Lemma nav_click_effects_witness :
  let doc := mkDocument (λ sel, if String.eqb sel "#contacto"
                                then Ok (Some (Elem "section#contacto")) else Ok None) in
  let p := mkPage (mkElement ["menu-toggle"] {["aria-expanded" := "true"]} "" ∅)
                  (mkElement ["show"] ∅ "" ∅)
                  [mkElement ["active"] {["href" := "#inicio"]} "Inicio" ∅;
                   mkElement [] {["href" := "#contacto"]} "Contacto" ∅]
                  0 false [] in
  let e := mkEvent click mouse "" (mkTarget false true (Some 1%nat)) in
  (∀ j, active_at j (exec (onNavClick doc e) p) ↔ j = 1%nat)
  ∧ scrolledIntoView (exec (onNavClick doc e) p) = [Elem "section#contacto"].
Proof.
  intros doc p e.
  destruct (nav_click_effects doc e p 1 _ (Some (Elem "section#contacto"))
              eq_refl eq_refl (λ _, eq_refl)) as (_ & H1 & _ & _ & H2 & _).
  exact (conj H1 H2).
Defined.

Lemma final_links_idemp (o : option Node) (links : list Element) :
  final_links o (final_links o links) = final_links o links.
Proof. destruct o; [apply mark_mark | done]. Qed.

(** X21: the scroll listener is idempotent.  When no link query throws,
    running it again at the same scroll position changes nothing more. *)
Theorem scroll_idempotent doc (secs : list SectionEl) (scrollY : Z) p :
  queries_ok doc secs →
  exec (onScroll doc secs scrollY) (exec (onScroll doc secs scrollY) p)
  = exec (onScroll doc secs scrollY) p.
Proof.
  intros Hok. unfold onScroll, exec.
  rewrite (forEach_visit doc scrollY secs p Hok). cbn [snd].
  rewrite (forEach_visit doc scrollY secs _ Hok). cbn [snd].
  destruct p; unfold set_navLinks; simpl. by rewrite final_links_idemp.
Qed.

Lemma scroll_idempotent_witness :
  let doc := mkDocument (λ sel,
    if String.eqb sel (link_selector "proyectos") then Ok (Some (NavLink 0))
    else Ok None) in
  let secs := [mkSection 0 900 "proyectos"; mkSection 900 700 "contacto"] in
  let p := mkPage (mkElement ["menu-toggle"] ∅ "" ∅) (mkElement [] ∅ "" ∅)
                  [mkElement [] {["href" := "#proyectos"]} "Proyectos" ∅]
                  0 false [] in
  exec (onScroll doc secs 300) (exec (onScroll doc secs 300) p)
  = exec (onScroll doc secs 300) p.
Proof.
  intros doc secs p. apply scroll_idempotent.
  repeat constructor; by eexists.
Defined.

(** A link after the scroll loop is the link before it, up to the class
    "active". *)
Lemma final_links_lookup (o : option Node) (links : list Element) (j : nat) l :
  links !! j = Some l →
  ∃ l', final_links o links !! j = Some l'
        ∧ attributes l' = attributes l
        ∧ textContent l' = textContent l
        ∧ style l' = style l
        ∧ ∀ c, c ≠ "active" → (c ∈ classList l' ↔ c ∈ classList l).
Proof.
  intros Hl.
  assert (Hrem : ∀ c, c ≠ "active" →
                      c ∈ classList (classList_remove "active" l) ↔ c ∈ classList l).
  { intros c Hc. simpl. rewrite elem_of_tokens_remove. tauto. }
  assert (Hadd : ∀ c, c ≠ "active" →
                      c ∈ classList (classList_add "active" (classList_remove "active" l))
                      ↔ c ∈ classList l).
  { intros c Hc. rewrite <- (Hrem c Hc). simpl. unfold tokens_add.
    destruct (bool_decide _); [done|]. rewrite elem_of_app, list_elem_of_singleton.
    tauto. }
  destruct o as [[i|name]|]; unfold final_links.
  - rewrite mark_lookup, Hl. simpl. eexists. split; [done|].
    destruct (decide (i = j)); repeat (split; [done|]); [apply Hadd | apply Hrem].
  - unfold mark. rewrite list_lookup_fmap, Hl. simpl. eexists. split; [done|].
    repeat (split; [done|]). apply Hrem.
  - exists l. by repeat (split; [done|]).
Qed.

(** X22: scrolling only ever moves the class "active".  Whatever the
    sections and the document, even when a query throws, the scroll
    listener leaves the toggle, the list, the touch timestamp and the
    event alone, keeps every link in place with its attributes, text and
    style, and changes no class of a link other than "active". *)
Theorem scroll_moves_only_active doc (secs : list SectionEl) (scrollY : Z) p :
  let p' := exec (onScroll doc secs scrollY) p in
  toggle p' = toggle p ∧ navUl p' = navUl p ∧ lastTouch p' = lastTouch p
  ∧ defaultPrevented p' = defaultPrevented p
  ∧ scrolledIntoView p' = scrolledIntoView p
  ∧ length (navLinks p') = length (navLinks p)
  ∧ ∀ j l, navLinks p !! j = Some l →
      ∃ l', navLinks p' !! j = Some l'
        ∧ attributes l' = attributes l
        ∧ textContent l' = textContent l
        ∧ style l' = style l
        ∧ ∀ c, c ≠ "active" → (c ∈ classList l' ↔ c ∈ classList l).
Proof.
  intros p'. subst p'. unfold onScroll.
  destruct (forEach_visit_prefix doc (scrollY + 120) secs p) as (r & Hok & ->).
  unfold exec. rewrite (forEach_visit doc scrollY r p Hok). simpl.
  repeat split; try done.
  - destruct (last (current_links doc r scrollY)) as [[i|name]|]; simpl;
      by rewrite ?length_alter, ?length_fmap.
  - intros j l Hl. by apply final_links_lookup.
Qed.

End LinkEffects.

(** ** The expanded flag along a run of events *)

Section SyncedRuns.

Import Nav.

(** X23: [initMenu] keeps [aria-expanded] in step with the list.  From a
    page where the two agree, after any run of events in which no click
    lands on a navigation link (taps, clicks, keys, on the toggle, inside
    or outside [nav], with either registration) they still agree. *)
Theorem menu_run_keeps_synced (pe : bool) (doc : Document) (es : list (Z * Event))
    (p : Page) :
  Forall (λ te, closestNavLink (target (snd te)) = None) es →
  synced p → synced (run pe doc es p).
Proof.
  revert p. induction es as [|[t e] r IH]; intros p Hall Hs; [done|].
  apply Forall_cons in Hall as [He Hr]. simpl. apply IH; [done|].
  by apply menu_listeners_keep_synced.
Qed.

Lemma menu_run_keeps_synced_witness :
  let doc := mkDocument (λ _, Ok None) in
  let p := mkPage (mkElement ["menu-toggle"] {["aria-expanded" := "false"]} "" ∅)
                  (mkElement [] ∅ "" ∅) [] 0 false [] in
  let es := [(1700000000000, tap "" true None);
             (1700000002000, mkEvent keydown mouse "Escape" (mkTarget false false None));
             (1700000003000, mkEvent keydown mouse "Enter" (mkTarget true true None));
             (1700000004000, mkEvent click mouse "" (mkTarget false false None))] in
  synced (run true doc es p).
Proof.
  intros doc p es.
  apply (menu_run_keeps_synced true doc es p); [repeat constructor | reflexivity].
Defined.

Lemma fallback_touch_then_click_witness :
  let doc := mkDocument (λ _, Ok None) in
  let p := mkPage (mkElement ["menu-toggle"] {["aria-expanded" := "false"]} "" ∅)
                  (mkElement [] ∅ "" ∅) [] 0 false [] in
  let e1 := mkEvent touchstart touch "" (mkTarget true true None) in
  let e2 := mkEvent click mouse "" (mkTarget true true None) in
  shown (dispatch false doc 1700000000000 e1 p) = true
  ∧ dispatch false doc 1700000000300 e2 (dispatch false doc 1700000000000 e1 p)
    = set_defaultPrevented false (dispatch false doc 1700000000000 e1 p).
Proof.
  intros doc p e1 e2.
  assert (Ht : 1700000000300 - 1700000000000 < TOUCH_IGNORE_MS)
    by (vm_compute; reflexivity).
  exact (fallback_touch_then_click doc p 1700000000000 1700000000300 "" ""
           touch mouse true Ht).
Defined.

End SyncedRuns.
